(** * Session state of the Microsoft Graph authentication manager

    A shallow embedding of [src/mcp_sharepoint/auth.py]: the
    [GraphAuthManager] class, its account directory, its device-flow
    coordinator and its silent token acquisition.

    Conventions of the embedding.
    - A Python [Optional[str]] is an [option string]; [not x] is
      [negb (truthy x)], so both [None] and the empty string are falsy.
    - Text is UTF-8: a [string] lists the bytes of the encoded text, as
      a string literal of this file does.  An ASCII character is one
      byte, and no byte of another character is an ASCII byte, so
      looking for [","], ["/"] or ["//"] in the bytes is looking for
      them in the text.  [str.strip] is modelled on the bytes, for the
      white space of Unicode; [str.lower] is a parameter of the model.
    - An identity-library account record ([Dict[str, Any]]) is a finite
      map from keys to text.  A key is either absent or bound to a
      string, which is what the [AccountSummary] dataclass declares for
      the attributes read from it; [tenant_profiles], an opaque nested
      mapping that is only passed through, is carried as text.  A
      record that binds a key to [None] is outside the model.
    - A method of the manager is a function from the manager's state to
      an outcome (returned value or raised exception) and the state it
      leaves behind.  Mutations made before a [raise] persist, as they
      do on the Python object.
    - The identity library's application object is a field of the
      manager.  What the outside world answers during a call (the
      identity provider, the file system, the UUID generator) is an
      argument of the method: the modelled code runs against any
      answer. *)

From stdpp Require Import gmap strings list fin_maps pretty.
From Stdlib Require Import ZArith Ascii.

Open Scope string_scope.
Open Scope nat_scope.

(** ** Python values *)

(** Truthiness of an [Optional[str]]. *)
Definition truthy (x : option string) : bool :=
  match x with
  | Some s => negb (bool_decide (s = ""))
  | None => false
  end.

(** [x or y] on optional strings. *)
Definition py_or (x y : option string) : option string :=
  if truthy x then x else y.

(** [str.lower].  Python lowers text by the Unicode case mapping of the
    interpreter it runs on (about 1400 letters, some of them lowered to
    two characters, one by its context).  The code is modelled against
    any such mapping; all that is used of it is that it maps no text to
    the empty text and the empty text to nothing else. *)
Class StrLower : Type := {
  lower : string → string;
  lower_empty_iff : ∀ s, lower s = "" ↔ s = ""
}.

(** [str.lower] on text whose cased letters are in the blocks Basic
    Latin and Latin-1 Supplement: [A] to [Z], and the two-byte letters
    U+00C0 to U+00DE without the multiplication sign U+00D7, which lie
    32 below their lower-case forms.  The sample sessions use it. *)
Definition lower_ascii (c : ascii) : ascii :=
  let n := nat_of_ascii c in
  if (65 <=? n)%nat && (n <=? 90)%nat then ascii_of_nat (n + 32) else c.

Definition latin1_upper (a b : ascii) : bool :=
  let n := nat_of_ascii b in
  bool_decide (nat_of_ascii a = 195) &&
  (128 <=? n)%nat && (n <=? 158)%nat && negb (n =? 151)%nat.

Fixpoint lower_latin (s : string) : string :=
  match s with
  | EmptyString => EmptyString
  | String a t =>
      match t with
      | String b rest =>
          if latin1_upper a b
          then String a (String (ascii_of_nat (nat_of_ascii b + 32))
                                (lower_latin rest))
          else String (lower_ascii a) (lower_latin t)
      | EmptyString => String (lower_ascii a) EmptyString
      end
  end.

Definition latin_lower : StrLower :=
  {| lower := lower_latin;
     lower_empty_iff := ltac:(intros [|a [|b t]]; simpl;
                              [done | done | by destruct (latin1_upper a b)]) |}.

(** Values stored in the dictionaries that are only passed through
    (device-flow contexts and the instructions handed to the caller). *)
Inductive pyval : Type :=
  | PNone
  | PStr (s : string)
  | PInt (n : Z).

Definition pyval_truthy (v : pyval) : bool :=
  match v with
  | PNone => false
  | PStr s => negb (bool_decide (s = ""))
  | PInt n => negb (n =? 0)%Z
  end.

(** [d.get(k)] on such a dictionary. *)
Definition pyget (d : gmap string pyval) (k : string) : pyval :=
  default PNone (d !! k).

Definition pyval_or (x y : pyval) : pyval :=
  if pyval_truthy x then x else y.

(** ** Exceptions *)

Inductive exc_class : Type :=
  | AuthenticationError
  | AuthenticationFlowNotFound
  | RuntimeError
  | ValueError
  | UnicodeDecodeError
  | JSONDecodeError
  | OSError
  | PermissionError
  | OtherException.

Definition exc_class_eqb (c d : exc_class) : bool :=
  match c, d with
  | AuthenticationError, AuthenticationError
  | AuthenticationFlowNotFound, AuthenticationFlowNotFound
  | RuntimeError, RuntimeError
  | ValueError, ValueError
  | UnicodeDecodeError, UnicodeDecodeError
  | JSONDecodeError, JSONDecodeError
  | OSError, OSError
  | PermissionError, PermissionError
  | OtherException, OtherException => true
  | _, _ => false
  end.

(** The direct base class, as declared in [auth.py] for the two
    authentication errors and by Python for the built-in ones. *)
Definition base_class (c : exc_class) : option exc_class :=
  match c with
  | AuthenticationFlowNotFound => Some AuthenticationError
  | AuthenticationError => Some RuntimeError
  | UnicodeDecodeError => Some ValueError
  | JSONDecodeError => Some ValueError
  | PermissionError => Some OSError
  | _ => None
  end.

(** [issubclass c d]; three steps reach the top of every chain above. *)
Definition issubclass (c d : exc_class) : bool :=
  let up (o : option exc_class) := o ≫= base_class in
  let hit (o : option exc_class) :=
    match o with Some x => exc_class_eqb x d | None => false end in
  hit (Some c) || hit (base_class c) || hit (up (base_class c)).

Record exn : Type := Exn { exn_class : exc_class; exn_message : string }.

(** What a call produces: a value, or an exception that unwinds. *)
Inductive outcome (A : Type) : Type :=
  | Return (a : A)
  | Raise (e : exn).
Arguments Return {A} a.
Arguments Raise {A} e.

(** ** Data model *)

(** [AccountSummary], the dataclass. *)
Record AccountSummary : Type := mkAccountSummary {
  username : string;
  name : option string;
  home_account_id : string;
  environment : option string;
  tenant_profiles : option string;
  is_active : bool
}.

(** [summary.is_active = b]. *)
Definition set_is_active (b : bool) (s : AccountSummary) : AccountSummary :=
  mkAccountSummary (username s) (name s) (home_account_id s)
                   (environment s) (tenant_profiles s) b.

(** The identity library's application object, as far as the manager
    can observe it: what it was constructed with, the accounts of its
    token cache in the order [get_accounts()] lists them, and the
    cache's [has_state_changed] flag. *)
Record app : Type := mkApp {
  app_client_id : string;
  app_authority : string;
  app_accounts : list (gmap string string);
  has_state_changed : bool
}.

Inductive level : Type := INFO | WARNING.

(** The provider's answer to a token request: a mapping with optional
    entries.  [other] holds every entry the manager never reads
    ([error], [correlation_id], ...); it matters for the truth value of
    the mapping. *)
Record response : Type := mkResponse {
  access_token : option string;
  error_description : option string;
  account : option (gmap string string);
  id_token_claims : option (gmap string string);
  expires_in : option Z;
  scope : option string;
  token_type : option string;
  other : gmap string string
}.

(** The fields of [GraphAuthManager].  [_cache_path] is a [Path]
    object, held by its text ([str(self._cache_path)]). *)
Record manager : Type := mkManager {
  _scopes : list string;
  _cache_path : string;
  _pending_device_flows : gmap string (gmap string pyval);
  _active_account_id : option string;
  _app : app;
  _logger : list (level * string)
}.

Definition set_active_account_id (v : option string) (m : manager) : manager :=
  mkManager (_scopes m) (_cache_path m) (_pending_device_flows m) v
            (_app m) (_logger m).

Definition set_pending_device_flows (p : gmap string (gmap string pyval))
    (m : manager) : manager :=
  mkManager (_scopes m) (_cache_path m) p (_active_account_id m)
            (_app m) (_logger m).

Definition set_app (a : app) (m : manager) : manager :=
  mkManager (_scopes m) (_cache_path m) (_pending_device_flows m)
            (_active_account_id m) a (_logger m).

(** [self._logger.info(...)] and [self._logger.warning(...)]. *)
Definition log (l : level) (msg : string) (m : manager) : manager :=
  mkManager (_scopes m) (_cache_path m) (_pending_device_flows m)
            (_active_account_id m) (_app m) (_logger m ++ [(l, msg)]).

(** ** Methods as state transformers *)

Definition M (A : Type) : Type := manager → outcome A * manager.

Definition ret {A} (a : A) : M A := λ m, (Return a, m).
Definition raise {A} (c : exc_class) (msg : string) : M A :=
  λ m, (Raise (Exn c msg), m).
Definition bind {A B} (x : M A) (f : A → M B) : M B :=
  λ m, match x m with
       | (Return a, m') => f a m'
       | (Raise e, m') => (Raise e, m')
       end.
Definition gets {A} (f : manager → A) : M A := λ m, (Return (f m), m).
Definition modify (f : manager → manager) : M unit := λ m, (Return tt, f m).

Declare Scope py_scope.
Delimit Scope py_scope with py.
Notation "'let*' x ':=' c 'in' k" := (bind c (λ x, k))
  (at level 10, x name, c at level 100, k at level 200) : py_scope.
Notation "'perform' c 'then' k" := (bind c (λ _, k))
  (at level 10, c at level 100, k at level 200) : py_scope.
Open Scope py_scope.

(** ** The identity library, as the manager uses it *)

(** [dict] truthiness of an account record. *)
Definition nonempty (d : gmap string string) : bool :=
  negb (bool_decide (d = ∅)).

(** [self._app.get_accounts(username=None)].  The library documents the
    optional argument as a case-insensitive filter on the account's
    username, taken here to compare the lowered texts; without it
    every account of the cache is listed. *)
Definition get_accounts `{StrLower} (username : option string) (a : app)
    : list (gmap string string) :=
  match username with
  | Some u =>
      if truthy username then
        filter (λ acct, lower (default "" (acct !! "username")) = lower u)
               (app_accounts a)
      else app_accounts a
  | None => app_accounts a
  end.

(** A request to the provider ([acquire_token_silent],
    [acquire_token_by_device_flow]) answers with a mapping or [None],
    or raises; either way it may have rewritten the token cache.  The
    answer may depend on the state the manager is in when it asks. *)
Definition provider_answer : Type := outcome (option response) * app.

(** The truth value of the mapping: it has at least one entry. *)
Definition response_truthy (r : response) : bool :=
  negb (bool_decide (access_token r = None ∧ error_description r = None ∧
                     account r = None ∧ id_token_claims r = None ∧
                     expires_in r = None ∧ scope r = None ∧
                     token_type r = None ∧ other r = ∅)).

(** [not result or "access_token" not in result]. *)
Definition unusable (result : option response) : bool :=
  match result with
  | None => true
  | Some r => negb (response_truthy r) || negb (bool_decide (is_Some (access_token r)))
  end.

(** ** [GraphAuthManager] *)

(** What the file system shows at [cache_path] when the manager is
    constructed: [exists()] raises; or it is false; or it is true, and
    [read_text(encoding="utf-8")] returns text or raises. *)
Inductive cache_file : Type :=
  | Inaccessible (e : exn)
  | Missing
  | Present (read_text : outcome string).

(** The dictionary returned by [complete_device_login]. *)
Record login_result : Type := mkLoginResult {
  r_success : bool;
  r_account : option AccountSummary;
  r_expires_in : option Z;
  r_scope : option string;
  r_token_type : option string
}.

(** The snapshot returned by [get_context]. *)
Record context : Type := mkContext {
  ctx_active_account : option AccountSummary;
  ctx_available_accounts : list AccountSummary;
  ctx_scopes : list string;
  ctx_cache_path : string
}.

Section Manager.

Context {str_lower : StrLower}.

(** [json.dumps] on a provider answer, and the token cache's
    [deserialize]: what the text of a cache file turns into (the
    accounts it holds), unless it raises. *)
Variable json_dumps : response → string.
Variable deserialize : string → outcome (list (gmap string string)).

(** [Path(cache_path)], by its text: the path as the platform writes
    it, which need not be the text it was made from (repeated
    separators and [.] segments go). *)
Variable Path : string → string.

(** [msal.PublicClientApplication(client_id=..., authority=...,
    token_cache=...)], given the accounts the token cache holds: the
    application object, unless the constructor raises (it resolves the
    authority, which can take it to the network). *)
Variable PublicClientApplication :
  string → string → list (gmap string string) → outcome app.

(** [__init__]. *)
Definition __init__ (client_id tenant_id : string) (scopes : list string)
    (cache_path : string) (file : cache_file) : outcome manager :=
  if bool_decide (client_id = "") then
    Raise (Exn ValueError
      "client_id is required to authenticate against Microsoft Graph")
  else
    let authority :=
      "https://login.microsoftonline.com/"
      ++ (if bool_decide (tenant_id = "") then "common" else tenant_id) in
    (* the last statement: the application over the token cache *)
    let construct (accounts : list (gmap string string))
                  (logger : list (level * string)) : outcome manager :=
      match PublicClientApplication client_id authority accounts with
      | Return a => Return (mkManager scopes (Path cache_path) ∅ None a logger)
      | Raise e => Raise e
      end in
    match file with
    | Inaccessible e => Raise e
    | Missing => construct [] []
    | Present read =>
        (* the [try] block *)
        let attempt : outcome (list (gmap string string)) :=
          match read with
          | Return cache_data =>
              if bool_decide (cache_data = "") then Return []
              else deserialize cache_data
          | Raise e => Raise e
          end in
        match attempt with
        | Return accounts => construct accounts []
        | Raise e =>
            if issubclass (exn_class e) OSError then
              construct []
                [(WARNING, "Unable to read token cache: " ++ exn_message e)]
            else Raise e
        end
    end.

(** [_save_cache].  [persist] is the guarded block: creating the
    parent directory, serialising the cache (which is when the library
    clears [has_state_changed]) and writing the file. *)
Definition _save_cache (persist : app → outcome unit * app) : M unit :=
  λ m,
    if has_state_changed (_app m) then
      match persist (_app m) with
      | (Return _, a) => (Return tt, set_app a m)
      | (Raise e, a) =>
          if issubclass (exn_class e) OSError then
            (Return tt,
             log WARNING ("Unable to persist token cache: " ++ exn_message e)
                 (set_app a m))
          else (Raise e, set_app a m)
      end
    else (Return tt, m).

(** [_serialize_account]. *)
Definition _serialize_account (m : manager)
    (acct : option (gmap string string)) : option AccountSummary :=
  match acct with
  | None => None
  | Some a =>
      if nonempty a then
        Some (mkAccountSummary
                (default "" (a !! "username"))
                (a !! "name")
                (default "" (a !! "home_account_id"))
                (a !! "environment")
                (a !! "tenant_profiles")
                (bool_decide (a !! "home_account_id" = _active_account_id m)))
      else None
  end.

(** [list_accounts]. *)
Definition list_accounts : M (list AccountSummary) :=
  λ m,
    let accounts := get_accounts None (_app m) in
    let summaries := map (λ a, _serialize_account m (Some a)) accounts in
    if negb (truthy (_active_account_id m)) &&
       bool_decide (length accounts = 1%nat) then
      (* auto-select a single cached account if none is active *)
      let m' :=
        set_active_account_id
          (accounts !! 0%nat ≫= λ first, first !! "home_account_id") m in
      let summaries' :=
        match summaries with
        | Some s :: rest => Some (set_is_active true s) :: rest
        | _ => summaries
        end in
      (Return (omap id summaries'), m')
    else
      let mark s :=
        set_is_active
          (bool_decide (Some (home_account_id s) = _active_account_id m)) s in
      (Return (omap id (map (fmap mark) summaries)), m).

(** [get_active_account]. *)
Definition get_active_account : M (option (gmap string string)) :=
  λ m,
    if negb (truthy (_active_account_id m)) then (Return None, m)
    else
      match find (λ a, bool_decide (a !! "home_account_id" = _active_account_id m))
                 (get_accounts None (_app m)) with
      | Some a => (Return (Some a), m)
      | None => (Return None, set_active_account_id None m)
      end.

(** The loop of [set_active_account]. *)
Fixpoint set_active_account_loop (home_id uname : option string)
    (accounts : list (gmap string string)) : M (option AccountSummary) :=
  match accounts with
  | [] =>
      raise AuthenticationError
            "No cached account matches the provided identifier"
  | a :: rest =>
      if truthy home_id && bool_decide (a !! "home_account_id" = home_id) then
        perform modify (set_active_account_id home_id) then
        let* summary := gets (λ m, _serialize_account m (Some a)) in
        ret (set_is_active true <$> summary)
      else if truthy uname &&
              bool_decide (lower (default "" (a !! "username"))
                           = lower (default "" uname)) then
        perform modify (set_active_account_id (a !! "home_account_id")) then
        let* summary := gets (λ m, _serialize_account m (Some a)) in
        ret (set_is_active true <$> summary)
      else set_active_account_loop home_id uname rest
  end.

(** [set_active_account]. *)
Definition set_active_account (home_id uname : option string)
    : M (option AccountSummary) :=
  if negb (truthy home_id) && negb (truthy uname) then
    raise AuthenticationError
          "Either home_account_id or username must be provided"
  else
    let* accounts := gets (λ m, get_accounts None (_app m)) in
    set_active_account_loop home_id uname accounts.

(** [get_active_account_summary]. *)
Definition get_active_account_summary : M (option AccountSummary) :=
  let* acct := get_active_account in
  gets (λ m, _serialize_account m acct).


(** [not account] on an [Optional[Dict]]. *)
Definition dict_truthy (d : option (gmap string string)) : bool :=
  match d with
  | Some a => nonempty a
  | None => false
  end.

(** Asking the provider: its answer replaces the library's state. *)
Definition ask (answer : manager → provider_answer)
    : M (option response) :=
  λ m, let '(result, a) := answer m in (result, set_app a m).

(** [acquire_token_silent].  [provider m acct] is what
    [self._app.acquire_token_silent(self._scopes, account=acct)]
    answers when the manager is in state [m]. *)
Definition acquire_token_silent
    (provider : manager → gmap string string → provider_answer)
    (persist : app → outcome unit * app) : M string :=
  let* active := get_active_account in
  let* acct :=
    if negb (dict_truthy active) then
      let* accounts := gets (λ m, get_accounts None (_app m)) in
      match accounts with
      | [only] =>
          perform modify (set_active_account_id (only !! "home_account_id")) then
          ret only
      | _ =>
          raise AuthenticationError
            ("No active Microsoft account selected. Use the authentication tools to sign in "
             ++ "and select an account.")
      end
    else ret (default ∅ active) in
  let* result := ask (λ m, provider m acct) in
  if unusable result then
    let error_description :=
      match result with
      | Some r =>
          if response_truthy r
          then py_or (error_description r) (Some (json_dumps r))
          else None
      | None => None
      end in
    raise AuthenticationError
      ("Unable to acquire a token silently. Complete the device login flow first."
       ++ (if truthy error_description
           then " Details: " ++ default "" error_description
           else ""))
  else
    perform _save_cache persist then
    ret (default "" (result ≫= access_token)).

(** [start_device_login].  [initiate] is the provider's answer to
    [initiate_device_flow]; [uuid4] is the text of the identifier the
    generator hands out. *)
Definition start_device_login (initiate : outcome (gmap string pyval))
    (uuid4 : string) : M (gmap string pyval) :=
  let* flow := (λ m, (initiate, m)) in
  if negb (bool_decide (is_Some (flow !! "user_code"))) then
    raise AuthenticationError "Failed to start the device login flow"
  else
    let flow_id := uuid4 in
    perform modify (λ m,
      set_pending_device_flows (<[flow_id := flow]> (_pending_device_flows m)) m) then
    perform modify (log INFO
      ("Initiated device login flow " ++ flow_id ++ " for Microsoft Graph")) then
    ret (<["flow_id" := PStr flow_id]>
         (<["user_code" := pyget flow "user_code"]>
         (<["verification_uri" :=
              pyval_or (pyget flow "verification_uri")
                       (pyget flow "verification_uri_complete")]>
         (<["expires_in" := pyget flow "expires_in"]>
         (<["interval" := pyget flow "interval"]>
         (<["message" := pyget flow "message"]> ∅)))))).

(** The username the provider's answer names: the account entry's
    username, else the identity claims' [preferred_username], else
    their [email]. *)
Definition preferred_username_of (result : response) : option string :=
  let account_info := account result in
  let preferred_username :=
    if dict_truthy account_info
    then account_info ≫= λ info, info !! "username"
    else None in
  if negb (truthy preferred_username) then
    let claims := default ∅ (id_token_claims result) in
    py_or (claims !! "preferred_username") (claims !! "email")
  else preferred_username.

(** The account-selection block of [complete_device_login]. *)
Definition select_account (preferred_username : option string)
    : M (option (gmap string string)) :=
  let* selected_account :=
    if truthy preferred_username then
      let* matching_accounts :=
        gets (λ m, get_accounts preferred_username (_app m)) in
      match matching_accounts with
      | first :: _ =>
          perform modify (set_active_account_id (first !! "home_account_id")) then
          ret (Some first)
      | [] => ret None
      end
    else ret None in
  if negb (dict_truthy selected_account) then
    let* accounts := gets (λ m, get_accounts None (_app m)) in
    match last accounts with
    | Some newest =>
        perform modify (set_active_account_id (newest !! "home_account_id")) then
        ret (Some newest)
    | None => ret selected_account
    end
  else ret selected_account.

(** [complete_device_login].  [provider m flow timeout] is what
    [self._app.acquire_token_by_device_flow(flow, timeout=timeout)]
    answers when the manager is in state [m]. *)
Definition complete_device_login (flow_id : string) (timeout : option Z)
    (provider : manager → gmap string pyval → option Z → provider_answer)
    (persist : app → outcome unit * app) : M login_result :=
  let* flow := (λ m,
    (Return (_pending_device_flows m !! flow_id),
     set_pending_device_flows (delete flow_id (_pending_device_flows m)) m)) in
  match flow with
  | Some fl =>
      if bool_decide (fl = ∅) then
        raise AuthenticationFlowNotFound
          "The requested device flow does not exist or has already been completed."
      else
        let* result := ask (λ m, provider m fl timeout) in
        if unusable result then
          let message := result ≫= error_description in
          raise AuthenticationError
            ("Device login did not succeed."
             ++ (if truthy message then " Details: " ++ default "" message else ""))
        else
          let r := default (mkResponse None None None None None None None ∅) result in
          perform _save_cache persist then
          let* selected_account := select_account (preferred_username_of r) in
          let* serialized := gets (λ m, _serialize_account m selected_account) in
          let summary := set_is_active true <$> serialized in
          perform modify (log INFO
            ("Device login completed for account "
             ++ match summary with Some s => username s | None => "unknown" end)) then
          ret (mkLoginResult true summary (expires_in r) (scope r) (token_type r))
  | None =>
      raise AuthenticationFlowNotFound
        "The requested device flow does not exist or has already been completed."
  end.

(** [get_context]. *)
Definition get_context : M context :=
  let* active := get_active_account_summary in
  let* available := list_accounts in
  let* scopes := gets _scopes in
  let* cache_path := gets _cache_path in
  ret (mkContext active available scopes cache_path).

(** ** Sessions

    A session is a sequence of calls on one manager.  Each call
    carries the answers the outside world gives while it runs. *)
Inductive call : Type :=
  | ListAccounts
  | GetActiveAccount
  | SetActiveAccount (home_id uname : option string)
  | GetActiveAccountSummary
  | AcquireTokenSilent
      (provider : manager → gmap string string → provider_answer)
      (persist : app → outcome unit * app)
  | StartDeviceLogin (initiate : outcome (gmap string pyval)) (uuid4 : string)
  | CompleteDeviceLogin (flow_id : string) (timeout : option Z)
      (provider : manager → gmap string pyval → option Z → provider_answer)
      (persist : app → outcome unit * app)
  | GetContext
  | CacheChangedOutside (a : app).

(** The state a call leaves behind, whatever it returned or raised. *)
Definition step (c : call) (m : manager) : manager :=
  match c with
  | ListAccounts => snd (list_accounts m)
  | GetActiveAccount => snd (get_active_account m)
  | SetActiveAccount home_id uname => snd (set_active_account home_id uname m)
  | GetActiveAccountSummary => snd (get_active_account_summary m)
  | AcquireTokenSilent provider persist =>
      snd (acquire_token_silent provider persist m)
  | StartDeviceLogin initiate uuid4 => snd (start_device_login initiate uuid4 m)
  | CompleteDeviceLogin flow_id timeout provider persist =>
      snd (complete_device_login flow_id timeout provider persist m)
  | GetContext => snd (get_context m)
  | CacheChangedOutside a => set_app a m
  end.

Definition session (calls : list call) (m : manager) : manager :=
  foldl (λ st c, step c st) m calls.

End Manager.

(** ** Sample sessions *)

Definition alice : gmap string string :=
  <["home_account_id" := "uid-alice.tenant-1"]>
    (<["username" := "alice@example.com"]>
       (<["environment" := "login.microsoftonline.com"]> ∅)).

Definition bob : gmap string string :=
  <["home_account_id" := "uid-bob.tenant-1"]>
    (<["username" := "Bob@Example.com"]>
       (<["environment" := "login.microsoftonline.com"]> ∅)).

(** A second identity that signs in under alice's address (a personal
    account next to a work account). *)
Definition alice_personal : gmap string string :=
  <["home_account_id" := "uid-alice.tenant-consumers"]>
    (<["username" := "alice@example.com"]>
       (<["environment" := "login.microsoftonline.com"]> ∅)).


Definition sample_app (accounts : list (gmap string string)) (changed : bool)
    : app :=
  mkApp "00000000-0000-0000-0000-000000000000"
        "https://login.microsoftonline.com/common" accounts changed.

(** A manager on a given store, with a given pointer and nothing
    pending. *)
Definition manager_on (accounts : list (gmap string string))
    (active : option string) : manager :=
  mkManager ["Files.ReadWrite.All"; "Sites.ReadWrite.All"; "User.Read"; "offline_access"]
            "/home/user/.cache/mcp_sharepoint/token_cache.json"
            ∅ active (sample_app accounts false) [].

Definition sample_flow : gmap string pyval :=
  <["user_code" := PStr "ABCD-EFGH"]>
    (<["verification_uri" := PStr "https://microsoft.com/devicelogin"]>
       (<["expires_in" := PInt 900]> ∅)).

(** A provider that denies every request and leaves the cache alone. *)
Definition denying_provider {X : Type} (m : manager) (_ : X) : provider_answer :=
  (Return None, _app m).

Definition denying_exchange (m : manager) (_ : gmap string pyval)
    (_ : option Z) : provider_answer :=
  (Return None, _app m).

(** A file system on which saving succeeds. *)
Definition saving (a : app) : outcome unit * app :=
  (Return tt, mkApp (app_client_id a) (app_authority a) (app_accounts a) false).

Definition plain_json (_ : response) : string := "{}".

(** A provider answer that grants a token and names the user in its
    account entry, if a name is given. *)
Definition granted (uname : option string) : response :=
  mkResponse (Some "access-token-text") None
             ((λ u, <["username" := u]> ∅) <$> uname) None
             (Some 3600%Z) (Some "Files.ReadWrite.All User.Read") (Some "Bearer") ∅.

(** An exchange that grants, after which the cache holds [store]. *)
Definition granting_exchange (store : list (gmap string string))
    (uname : option string) (_ : manager) (_ : gmap string pyval)
    (_ : option Z) : provider_answer :=
  (Return (Some (granted uname)), sample_app store true).

(** A manager with one login under way. *)
Definition manager_awaiting (flow_id : string) : manager :=
  mkManager ["Files.ReadWrite.All"; "Sites.ReadWrite.All"; "User.Read"; "offline_access"]
            "/home/user/.cache/mcp_sharepoint/token_cache.json"
            (<[flow_id := sample_flow]> ∅) None (sample_app [] false) [].

(** ** Vocabulary of the properties *)

(** [keeps f x]: the method [x] never changes the component [f] of the
    manager, whether it returns or raises. *)
Definition keeps {A B} (f : manager → B) (x : M A) : Prop :=
  ∀ m, f (snd (x m)) = f m.

(** [issues flow_id c]: the call [c] is a login start to which the
    generator hands the identifier [flow_id]. *)
Definition issues (flow_id : string) (c : call) : Prop :=
  match c with
  | StartDeviceLogin _ uuid4 => uuid4 = flow_id
  | _ => False
  end.

(** [selects home_id uname a]: the account [a] answers the selector of
    [set_active_account]: its identifier is the given one, or its
    username and the given one are the same text once lowered. *)
Definition selects `{StrLower} (home_id uname : option string)
    (a : gmap string string) : bool :=
  (truthy home_id && bool_decide (a !! "home_account_id" = home_id))
  || (truthy uname &&
      bool_decide (lower (default "" (a !! "username")) = lower (default "" uname))).

(** How many summaries of a list are flagged active. *)
Fixpoint active_count (l : list AccountSummary) : nat :=
  match l with
  | [] => 0
  | s :: rest => (if is_active s then 1 else 0) + active_count rest
  end.

(** The identifier under which an account is listed. *)
Definition listed_id (a : gmap string string) : string :=
  default "" (a !! "home_account_id").

(** The account a completed login settles on, as the code has it: the
    first of the accounts the library lists for the preferred username,
    if there is a preferred username and the library lists any; else
    the last account the library lists; else none. *)
Definition selection `{StrLower} (store : app) (preferred_username : option string)
    : option (gmap string string) :=
  match (if truthy preferred_username
         then head (get_accounts preferred_username store) else None) with
  | Some a => Some a
  | None => last (get_accounts None store)
  end.

(** The account a completed login settles on, following the words of
    the specification: the most recent of the accounts matching the
    preferred username, and, if no account matches, the most recent
    account of the store.  [most_recent] says which end of a listing is
    the recent one. *)
Definition claimed_selection `{StrLower}
    (most_recent : list (gmap string string) → option (gmap string string))
    (store : app) (preferred_username : option string)
    : option (gmap string string) :=
  match (if truthy preferred_username
         then most_recent (get_accounts preferred_username store) else None) with
  | Some a => Some a
  | None => most_recent (get_accounts None store)
  end.

(** The specification's sentence about [complete_device_login], under a
    reading of recency: whenever the exchange grants a token and the
    call returns, the summary it returns is that of the claimed
    selection, flagged active. *)
Definition claimed_login_selection `{StrLower}
    (most_recent : list (gmap string string) → option (gmap string string))
    : Prop :=
  ∀ m flow_id fl timeout provider persist r a' res m',
    _pending_device_flows m !! flow_id = Some fl →
    provider (set_pending_device_flows
                (delete flow_id (_pending_device_flows m)) m) fl timeout
      = (Return (Some r), a') →
    complete_device_login flow_id timeout provider persist m = (Return res, m') →
    r_account res =
      set_is_active true <$>
        _serialize_account m'
          (claimed_selection most_recent (_app m') (preferred_username_of r)).

(** A provider that grants every silent request and leaves the cache
    alone. *)
Definition granting_provider (m : manager) (_ : gmap string string)
    : provider_answer :=
  (Return (Some (granted None)), _app m).

(** A file system on which nothing can be written. *)
Definition read_only (a : app) : outcome unit * app :=
  (Raise (Exn PermissionError "[Errno 13] Permission denied"), a).

(** [completes flow_id c]: the call [c] is a completion call for the
    identifier [flow_id]. *)
Definition completes (flow_id : string) (c : call) : Prop :=
  match c with
  | CompleteDeviceLogin f _ _ _ => f = flow_id
  | _ => False
  end.

(** An exchange that breaks on the way to the provider. *)
Definition failing_exchange (m : manager) (_ : gmap string pyval)
    (_ : option Z) : provider_answer :=
  (Raise (Exn OtherException "connection reset by peer"), _app m).

(** A token cache whose file always holds alice. *)
Definition deserialize_alice (_ : string) : outcome (list (gmap string string)) :=
  Return [alice].

(** The path object of a path that is already written the way the
    platform writes it: its text is the text it was made from. *)
Definition normal_path (cache_path : string) : string := cache_path.

(** A library constructor that returns: the application over the given
    token cache, with nothing to save yet. *)
Definition constructing (client_id authority : string)
    (accounts : list (gmap string string)) : outcome app :=
  Return (mkApp client_id authority accounts false).

(** * Text, as Python handles it *)

(** The white space of [str.isspace], which is what [str.strip()]
    removes, is 29 characters.  Ten take one byte: tab to carriage
    return, the four separators FS to US, and the space. *)
Definition isspace (c : ascii) : bool :=
  let n := nat_of_ascii c in
  ((9 <=? n) && (n <=? 13)) || ((28 <=? n) && (n <=? 32)).

(** Two take two bytes: U+0085 (C2 85) and U+00A0 (C2 A0). *)
Definition isspace2 (a b : ascii) : bool :=
  let x := nat_of_ascii a in
  let y := nat_of_ascii b in
  (x =? 194) && ((y =? 133) || (y =? 160)).

(** Seventeen take three: U+1680 (E1 9A 80), U+2000 to U+200A
    (E2 80 80 to E2 80 8A), U+2028 and U+2029 (E2 80 A8, E2 80 A9),
    U+202F (E2 80 AF), U+205F (E2 81 9F) and U+3000 (E3 80 80). *)
Definition isspace3 (a b c : ascii) : bool :=
  let x := nat_of_ascii a in
  let y := nat_of_ascii b in
  let z := nat_of_ascii c in
  ((x =? 225) && (y =? 154) && (z =? 128))
  || ((x =? 226) && (y =? 128) &&
      (((128 <=? z) && (z <=? 138)) || (z =? 168) || (z =? 169) || (z =? 175)))
  || ((x =? 226) && (y =? 129) && (z =? 159))
  || ((x =? 227) && (y =? 128) && (z =? 128)).

(** How many bytes the white-space character at the head of [s] takes;
    0 when [s] does not start with white space. *)
Definition space_width (s : string) : nat :=
  match s with
  | EmptyString => 0
  | String a t1 =>
      if isspace a then 1
      else match t1 with
           | String b t2 =>
               if isspace2 a b then 2
               else match t2 with
                    | String c _ => if isspace3 a b c then 3 else 0
                    | EmptyString => 0
                    end
           | EmptyString => 0
           end
  end.

(** [s.lstrip()]: the text after its leading white space. *)
Fixpoint lstrip (s : string) : string :=
  match s with
  | EmptyString => EmptyString
  | String a t1 =>
      if isspace a then lstrip t1
      else match t1 with
           | String b t2 =>
               if isspace2 a b then lstrip t2
               else match t2 with
                    | String c t3 => if isspace3 a b c then lstrip t3 else s
                    | EmptyString => s
                    end
           | EmptyString => s
           end
  end.

(** [s.rstrip()]: the text before its trailing white space, which is
    the longest end of [s] that is white space throughout. *)
Fixpoint rstrip (s : string) : string :=
  match s with
  | EmptyString => EmptyString
  | String c rest =>
      if bool_decide (lstrip s = EmptyString) then EmptyString
      else String c (rstrip rest)
  end.

(** [s.strip()]. *)
Definition strip (s : string) : string := rstrip (lstrip s).

(** [c in chars]. *)
Fixpoint has_char (c : ascii) (chars : string) : bool :=
  match chars with
  | EmptyString => false
  | String d rest => bool_decide (c = d) || has_char c rest
  end.

(** [s.lstrip(chars)] and [s.rstrip(chars)], for one-byte characters:
    those [p] accepts. *)
Fixpoint lstrip_with (p : ascii → bool) (s : string) : string :=
  match s with
  | EmptyString => EmptyString
  | String c rest => if p c then lstrip_with p rest else s
  end.

Fixpoint rstrip_with (p : ascii → bool) (s : string) : string :=
  match s with
  | EmptyString => EmptyString
  | String c rest =>
      match rstrip_with p rest with
      | EmptyString => if p c then EmptyString else String c EmptyString
      | kept => String c kept
      end
  end.

Definition strip_with (p : ascii → bool) (s : string) : string :=
  rstrip_with p (lstrip_with p s).

(** [s.strip(chars)]. *)
Definition strip_chars (chars : string) (s : string) : string :=
  strip_with (λ c, has_char c chars) s.

(** [s.split(sep)] for a separator of one character. *)
Fixpoint split_char (sep : ascii) (s : string) : list string :=
  match s with
  | EmptyString => [EmptyString]
  | String c rest =>
      if bool_decide (c = sep) then EmptyString :: split_char sep rest
      else match split_char sep rest with
           | first :: others => String c first :: others
           | [] => [String c EmptyString]
           end
  end.

(** [sep.join(l)] for a separator of one character. *)
Fixpoint join_char (sep : ascii) (l : list string) : string :=
  match l with
  | [] => EmptyString
  | [x] => x
  | x :: rest => x ++ String sep (join_char sep rest)
  end.

(** * [common.py]: the configured scopes *)

Definition DEFAULT_SCOPES : list string :=
  ["Files.ReadWrite.All"; "Sites.ReadWrite.All"; "User.Read"; "offline_access"].

(** The value of [scopes], from the value of the environment variable
    [MCP_GRAPH_SCOPES] ([None] when it is not set). *)
Definition configured_scopes (scopes_env : option string) : list string :=
  if truthy scopes_env then
    let scopes_list :=
      filter (λ scope, scope ≠ "")
             (map strip (split_char "," (default "" scopes_env))) in
    match scopes_list with
    | [] => DEFAULT_SCOPES
    | _ => scopes_list
    end
  else DEFAULT_SCOPES.

(** * More text: prefixes and the first occurrence of a separator *)

(** [s[len(prefix):]] when [s.startswith(prefix)]. *)
Fixpoint strip_prefix (prefix s : string) : option string :=
  match prefix, s with
  | EmptyString, _ => Some s
  | String c prefix', String d s' =>
      if bool_decide (c = d) then strip_prefix prefix' s' else None
  | String _ _, EmptyString => None
  end.

Definition startswith (prefix s : string) : bool :=
  bool_decide (is_Some (strip_prefix prefix s)).

(** The text before and after the first occurrence of [sep] in [s]:
    the two elements of [s.split(sep, 1)] when [sep] occurs. *)
Fixpoint find_split (sep s : string) : option (string * string) :=
  match strip_prefix sep s with
  | Some after => Some (EmptyString, after)
  | None =>
      match s with
      | EmptyString => None
      | String c rest =>
          match find_split sep rest with
          | Some (before, after) => Some (String c before, after)
          | None => None
          end
      end
  end.

(** [sub in s]. *)
Definition contains (sub s : string) : bool :=
  bool_decide (is_Some (find_split sub s)).

(** [s.endswith(c)] for one character, and [s[:-1]]. *)
Fixpoint endswith_char (c : ascii) (s : string) : bool :=
  match s with
  | EmptyString => false
  | String d EmptyString => bool_decide (d = c)
  | String _ rest => endswith_char c rest
  end.

Fixpoint drop_last (s : string) : string :=
  match s with
  | EmptyString => EmptyString
  | String _ EmptyString => EmptyString
  | String d rest => String d (drop_last rest)
  end.

(** * [graph.py] *)

Module GraphClient.

(** The values a JSON body parses to.  Numbers are integers. *)
#[warnings="-register-all"]
Inductive json : Type :=
  | JNull
  | JBool (b : bool)
  | JNum (n : Z)
  | JStr (s : string)
  | JList (items : list json)
  | JDict (entries : list (string * json)).

(** [d.get(k)] on the entries of a dictionary, [None] when absent. *)
Fixpoint jlookup (entries : list (string * json)) (k : string) : option json :=
  match entries with
  | [] => None
  | (k', v) :: rest => if bool_decide (k' = k) then Some v else jlookup rest k
  end.

(** Truth value of a JSON value. *)
Definition json_truthy (j : json) : bool :=
  match j with
  | JNull => false
  | JBool b => b
  | JNum n => negb (n =? 0)%Z
  | JStr s => negb (bool_decide (s = ""))
  | JList items => negb (bool_decide (items = []))
  | JDict entries => negb (bool_decide (entries = []))
  end.

(** What [requests.request] is called with, and what it answers. *)
Record http_request : Type := mkRequest {
  rq_method : string;
  rq_url : string;
  rq_params : option (gmap string string);
  rq_json : option json;
  rq_data : option string;
  rq_headers : gmap string string;
  rq_stream : bool
}.

(** A [requests.Response]: [parsed_json] is what [json()] returns,
    [None] when it raises [ValueError]. *)
Record http_response : Type := mkHttpResponse {
  status_code : Z;
  content : string;
  parsed_json : option json;
  text : string
}.

Inductive http_answer : Type :=
  | Responded (r : http_response)
  | RequestException (str_exc : string).

(** What [_request] returns. *)
Inductive payload : Type :=
  | Parsed (j : json)
  | RawBytes (b : string)
  | Streamed (r : http_response).

(** [GraphAPIError] and the exceptions that pass through the client. *)
Inductive details : Type :=
  | NoDetails
  | DetailText (s : string)
  | DetailJson (j : json)
  | DetailItem (p : payload).

Inductive gexn : Type :=
  | GraphAPIError (message : string) (status : option Z) (d : details)
  | Propagated (e : exn).

Inductive goutcome (A : Type) : Type :=
  | GReturn (a : A)
  | GRaise (e : gexn).
Arguments GReturn {A} a.
Arguments GRaise {A} e.

(** The fields of [GraphClient] that the code reads. *)
Record graph_client : Type := mkGraphClient {
  _auth_manager : manager;
  _base_url : string;
  _active_drive_id : option string
}.

Definition set_auth_manager (m : manager) (g : graph_client) : graph_client :=
  mkGraphClient m (_base_url g) (_active_drive_id g).

Definition set_active_drive_id (v : option string) (g : graph_client)
    : graph_client :=
  mkGraphClient (_auth_manager g) (_base_url g) v.

Record graph_context : Type := mkGraphContext {
  active_account : option AccountSummary;
  active_drive_id : option string
}.

Definition G (A : Type) : Type := graph_client → goutcome A * graph_client.

Definition gret {A} (a : A) : G A := λ g, (GReturn a, g).
Definition graise {A} (e : gexn) : G A := λ g, (GRaise e, g).
Definition gbind {A B} (x : G A) (f : A → G B) : G B :=
  λ g, match x g with
       | (GReturn a, g') => f a g'
       | (GRaise e, g') => (GRaise e, g')
       end.
(** A value or an exception computed without the client. *)
Definition glift {A} (o : goutcome A) : G A := λ g, (o, g).
(** A method of the authentication manager, run on the client's
    manager. *)
Definition on_manager {A} (x : M A) : G A :=
  λ g, match x (_auth_manager g) with
       | (Return a, m') => (GReturn a, set_auth_manager m' g)
       | (Raise e, m') => (GRaise (Propagated e), set_auth_manager m' g)
       end.

Notation "'let+' x ':=' c 'in' k" := (gbind c (λ x, k))
  (at level 10, x name, c at level 100, k at level 200).

(** [AttributeError], raised by [.get] on what is not a dictionary. *)
Definition attribute_error : gexn :=
  Propagated (Exn OtherException "AttributeError: object has no attribute 'get'").

(** [TypeError], raised by iterating what is not iterable. *)
Definition type_error : gexn :=
  Propagated (Exn OtherException "TypeError: object is not iterable").

(** [p.get(k, dflt)]. *)
Definition payload_get (p : payload) (k : string) (dflt : json) : goutcome json :=
  match p with
  | Parsed (JDict entries) => GReturn (default dflt (jlookup entries k))
  | _ => GRaise attribute_error
  end.

(** The items a [for] loop over a JSON value visits. *)
Definition iterate (j : json) : goutcome (list json) :=
  match j with
  | JList items => GReturn items
  | JDict entries => GReturn (map (λ kv, JStr (fst kv)) entries)
  | JStr s => GReturn (map (λ c, JStr (String c EmptyString)) (String.list_ascii_of_string s))
  | _ => GRaise type_error
  end.

(** [_is_text_mime]. *)
Definition _is_text_mime (mime_type : option string) : bool :=
  if negb (truthy mime_type) then false
  else
    let m := default "" mime_type in
    if startswith "text/" m then true
    else bool_decide (m ∈ ["application/json"; "application/xml";
                           "application/x-javascript"; "application/javascript";
                           "application/x-httpd-php"; "application/x-sh";
                           "application/x-python"; "application/sql"]).

(** [_safe_json]. *)
Definition _safe_json (response : http_response) : details :=
  match parsed_json response with
  | Some j => DetailJson j
  | None => DetailText (text response)
  end.

(** [GraphClient.__init__]. *)
Definition __init__ (auth_manager : manager) (base_url : option string)
    : graph_client :=
  mkGraphClient auth_manager
    (default "https://graph.microsoft.com/v1.0"
             (py_or base_url (Some "https://graph.microsoft.com/v1.0")))
    None.

(** [_simplify_drive_item]. *)
Definition _simplify_drive_item (item : payload) : goutcome json :=
  match item with
  | Parsed (JDict entries) =>
      let get k := default JNull (jlookup entries k) in
      match default (JDict []) (jlookup entries "parentReference") with
      | JDict parent =>
          GReturn (JDict
            [("id", get "id");
             ("name", get "name");
             ("driveId", default JNull (jlookup parent "driveId"));
             ("path", default JNull (jlookup parent "path"));
             ("webUrl", get "webUrl");
             ("createdDateTime", get "createdDateTime");
             ("lastModifiedDateTime", get "lastModifiedDateTime");
             ("size", get "size");
             ("folder", get "folder");
             ("file", get "file")])
      | _ => GRaise attribute_error
      end
  | _ => GRaise attribute_error
  end.

Section World.

Context {str_lower : StrLower}.

(** The world around the client: what [json.dumps] and [str] produce,
    the identity provider, the file system and the network. *)
Variable json_dumps : response → string.
Variable provider : manager → gmap string string → provider_answer.
Variable persist : app → outcome unit * app.
Variable send : http_request → http_answer.
Variable repr : json → string.

(** [str(v)], as an f-string formats a JSON value. *)
Definition py_str (j : json) : string :=
  match j with
  | JStr s => s
  | JNull => "None"
  | JBool true => "True"
  | JBool false => "False"
  | JNum n => pretty n
  | _ => repr j
  end.

(** [_authorization_headers]. *)
Definition _authorization_headers (extra : option (gmap string string))
    : G (gmap string string) :=
  let+ token := on_manager (acquire_token_silent json_dumps provider persist) in
  let headers : gmap string string := {["Authorization" := "Bearer " ++ token]} in
  gret (default ∅ extra ∪ headers).

(** [_request]. *)
Definition _request (method endpoint : string)
    (params : option (gmap string string)) (json_body : option json)
    (data : option string) (headers : option (gmap string string))
    (stream : bool) : G payload :=
  λ g,
    let url := _base_url g ++ endpoint in
    (let+ authorized := _authorization_headers headers in
     let request_headers :=
       if bool_decide (is_Some json_body)
          && negb (bool_decide (is_Some (authorized !! "Content-Type")))
          && negb stream && negb (bool_decide (is_Some data))
       then <["Content-Type" := "application/json"]> authorized
       else authorized in
     match send (mkRequest method url params json_body data request_headers stream) with
     | RequestException str_exc =>
         graise (GraphAPIError "Network error while calling Microsoft Graph"
                               None (DetailText str_exc))
     | Responded response =>
         let success :=
           (200 <=? status_code response)%Z && (status_code response <? 300)%Z in
         let failure :=
           GraphAPIError
             ("Microsoft Graph request failed with status "
              ++ pretty (status_code response))
             (Some (status_code response)) (_safe_json response) in
         if stream then
           if success then gret (Streamed response) else graise failure
         else if success then
           if negb (bool_decide (content response = "")) then
             match parsed_json response with
             | Some j => gret (Parsed j)
             | None => gret (RawBytes (content response))
             end
           else gret (Parsed (JDict []))
         else graise failure
     end) g.

(** [_resolve_drive_id]. *)
Definition _resolve_drive_id (drive_id : option string) : G string :=
  λ g,
    let drive := py_or drive_id (_active_drive_id g) in
    if negb (truthy drive) then
      (GRaise (GraphAPIError
         "No drive specified. Use Set_Active_Drive or provide drive_id explicitly in the tool call."
         None NoDetails), g)
    else (GReturn (default "" drive), g).

(** [_resolve_item]. *)
Definition _resolve_item (drive_id : string) (path : option string) : G payload :=
  if negb (truthy path) || bool_decide (strip_chars "/" (default "" path) = "") then
    _request "GET" ("/drives/" ++ drive_id ++ "/root") None None None None false
  else
    let normalized := strip_chars "/" (default "" path) in
    _request "GET" ("/drives/" ++ drive_id ++ "/root:/" ++ normalized)
             None None None None false.

(** [get_drive]. *)
Definition get_drive (drive_id : string) : G payload :=
  _request "GET" ("/drives/" ++ drive_id) None None None None false.

(** [set_active_drive]. *)
Definition set_active_drive (drive_id : string) : G payload :=
  let+ metadata := get_drive drive_id in
  λ g, (GReturn metadata, set_active_drive_id (Some drive_id) g).

(** [get_active_drive]. *)
Definition get_active_drive : G (option string) :=
  λ g, (GReturn (_active_drive_id g), g).

(** [get_context]. *)
Definition get_context : G graph_context :=
  let+ account := on_manager get_active_account_summary in
  λ g, (GReturn (mkGraphContext account (_active_drive_id g)), g).

(** [list_my_drives]. *)
Definition list_my_drives : G json :=
  let+ payload := _request "GET" "/me/drives" None None None None false in
  glift (payload_get payload "value" (JList [])).

(** [search_sites]. *)
Definition search_sites (query : string) : G json :=
  let+ payload :=
    _request "GET" "/sites" (Some {["search" := query]}) None None None false in
  glift (payload_get payload "value" (JList [])).

(** [get_site_by_url]. *)
Definition get_site_by_url (site_url : string) : G payload :=
  let trimmed := strip site_url in
  if bool_decide (trimmed = "") then
    graise (GraphAPIError "site_url cannot be empty" None NoDetails)
  else
    let trimmed := if endswith_char "/" trimmed then drop_last trimmed else trimmed in
    match find_split "//" trimmed with
    | None => graise (GraphAPIError "site_url must be an absolute URL" None NoDetails)
    | Some (_, after) =>
        let host :=
          match find_split "/" after with
          | Some (before, _) => before
          | None => after
          end in
        let+ relative :=
          if contains "/" after then
            if bool_decide (host = "") then
              graise (Propagated (Exn ValueError "empty separator"))
            else
              match find_split host trimmed with
              | Some (_, rest) => gret rest
              | None => graise (Propagated (Exn OtherException
                                  "IndexError: list index out of range"))
              end
          else gret "" in
        let relative := strip_chars "/" relative in
        let endpoint :=
          if negb (bool_decide (relative = ""))
          then "/sites/" ++ host ++ ":/" ++ relative ++ ":"
          else "/sites/" ++ host ++ ":" in
        _request "GET" endpoint None None None None false
    end.

(** [list_site_drives]. *)
Definition list_site_drives (site_id site_url : option string) : G json :=
  if negb (truthy site_id) && negb (truthy site_url) then
    graise (GraphAPIError
      "Either site_id or site_url must be provided to list site drives"
      None NoDetails)
  else
    let+ site :=
      if truthy site_url && negb (truthy site_id) then
        let+ site_metadata := get_site_by_url (default "" site_url) in
        let+ found := glift (payload_get site_metadata "id" JNull) in
        if negb (json_truthy found) then
          graise (GraphAPIError "Unable to resolve site ID from the provided URL"
                                None (DetailItem site_metadata))
        else gret (py_str found)
      else gret (default "" site_id) in
    let+ payload :=
      _request "GET" ("/sites/" ++ site ++ "/drives") None None None None false in
    glift (payload_get payload "value" (JList [])).

(** The list comprehension over [_simplify_drive_item]. *)
Fixpoint simplify_all (items : list json) : goutcome (list json) :=
  match items with
  | [] => GReturn []
  | item :: rest =>
      match _simplify_drive_item (Parsed item) with
      | GRaise e => GRaise e
      | GReturn simplified =>
          match simplify_all rest with
          | GRaise e => GRaise e
          | GReturn others => GReturn (simplified :: others)
          end
      end
  end.

(** [list_items]. *)
Definition list_items (drive_id path : option string) : G json :=
  let+ drive := _resolve_drive_id drive_id in
  let+ payload :=
    if negb (truthy path) || bool_decide (strip_chars "/" (default "" path) = "") then
      _request "GET" ("/drives/" ++ drive ++ "/root/children")
               None None None None false
    else
      let normalized := strip_chars "/" (default "" path) in
      _request "GET" ("/drives/" ++ drive ++ "/root:/" ++ normalized ++ ":/children")
               None None None None false in
  let+ value := glift (payload_get payload "value" (JList [])) in
  let+ items := glift (iterate value) in
  let+ simplified := glift (simplify_all items) in
  gret (JList simplified).

(** [get_item_metadata]. *)
Definition get_item_metadata (drive_id : option string) (path : string) : G json :=
  let+ drive := _resolve_drive_id drive_id in
  let+ item := _resolve_item drive (Some path) in
  let+ simplified := glift (_simplify_drive_item item) in
  match simplified, item with
  | JDict entries, Parsed raw =>
      gret (JDict (entries ++ [("raw", raw)])%list)
  | _, _ => graise attribute_error
  end.

(** [delete_item]. *)
Definition delete_item (drive_id : option string) (path : string) : G json :=
  let+ drive := _resolve_drive_id drive_id in
  let+ item := _resolve_item drive (Some path) in
  let+ ident := glift (payload_get item "id" JNull) in
  let+ _ := _request "DELETE" ("/drives/" ++ drive ++ "/items/" ++ py_str ident)
                     None None None None false in
  let+ name := glift (payload_get item "name" JNull) in
  let+ parent := glift (payload_get item "parentReference" (JDict [])) in
  let+ path_of_parent := glift (payload_get (Parsed parent) "path" JNull) in
  gret (JDict [("success", JBool true); ("id", ident); ("name", name);
               ("path", path_of_parent)]).

(** [create_folder]. *)
Definition create_folder (folder_name : string) (parent_path drive_id : option string)
    (conflict_behavior : string) : G json :=
  let+ drive := _resolve_drive_id drive_id in
  let+ parent := _resolve_item drive parent_path in
  let body :=
    JDict [("name", JStr folder_name); ("folder", JDict []);
           ("@microsoft.graph.conflictBehavior", JStr conflict_behavior)] in
  let+ ident := glift (payload_get parent "id" JNull) in
  let+ created :=
    _request "POST" ("/drives/" ++ drive ++ "/items/" ++ py_str ident ++ "/children")
             None (Some body) None None false in
  glift (_simplify_drive_item created).

End World.

End GraphClient.

(** ** Sample worlds for the Graph client *)

(** A network on which every request is answered with [r]. *)
Definition answering (r : GraphClient.http_response)
    (_ : GraphClient.http_request) : GraphClient.http_answer :=
  GraphClient.Responded r.

(** A network that fails every request. *)
Definition unreachable (_ : GraphClient.http_request) : GraphClient.http_answer :=
  GraphClient.RequestException "connection refused".

Definition plain_repr (_ : GraphClient.json) : string := "<object>".

(** The drive document the sample network serves. *)
Definition drive_document : GraphClient.json :=
  GraphClient.JDict [("id", GraphClient.JStr "b!drive-1");
                     ("name", GraphClient.JStr "Documents")].

Definition ok_response : GraphClient.http_response :=
  GraphClient.mkHttpResponse 200 "{id: b!drive-1}" (Some drive_document)
                             "{id: b!drive-1}".

Definition not_found_response : GraphClient.http_response :=
  GraphClient.mkHttpResponse 404 "{}" (Some (GraphClient.JDict [])) "{}".

(** A client whose manager has alice active. *)
Definition client_of_alice (drive : option string) : GraphClient.graph_client :=
  GraphClient.mkGraphClient (manager_on [alice] (Some "uid-alice.tenant-1"))
                            "https://graph.microsoft.com/v1.0" drive.

(** A client whose manager knows nobody. *)
Definition client_of_nobody (drive : option string) : GraphClient.graph_client :=
  GraphClient.mkGraphClient (manager_on [] None)
                            "https://graph.microsoft.com/v1.0" drive.

(** * Properties *)

Section Resolution.

Context {str_lower : StrLower}.

(** ** Bookkeeping on the manager record *)

Lemma manager_eta (m : manager) :
  mkManager (_scopes m) (_cache_path m) (_pending_device_flows m)
            (_active_account_id m) (_app m) (_logger m) = m.
Proof. by destruct m. Qed.

Lemma set_active_account_id_same (m : manager) :
  set_active_account_id (_active_account_id m) m = m.
Proof. apply manager_eta. Qed.

Lemma set_active_account_id_twice (v w : option string) (m : manager) :
  set_active_account_id v (set_active_account_id w m) = set_active_account_id v m.
Proof. reflexivity. Qed.

Lemma set_pending_device_flows_same (m : manager) :
  set_pending_device_flows (_pending_device_flows m) m = m.
Proof. apply manager_eta. Qed.

Lemma truthy_Some (x : option string) :
  truthy x = true → ∃ s, x = Some s ∧ s ≠ "".
Proof.
  destruct x as [s|]; simpl; [|discriminate].
  case_bool_decide; [discriminate|]. eauto.
Qed.

Lemma truthy_of_nonempty (s : string) : s ≠ "" → truthy (Some s) = true.
Proof. intros Hs. simpl. by rewrite bool_decide_eq_false_2. Qed.

(** ** Resolving the active account *)

(** [find] returns the first account carrying the identifier, and fails
    only when no account carries it. *)
Lemma find_home_account_id_None (v : option string)
    (accounts : list (gmap string string)) :
  find (λ a, bool_decide (a !! "home_account_id" = v)) accounts = None ↔
  ∀ a, a ∈ accounts → a !! "home_account_id" ≠ v.
Proof.
  induction accounts as [|b rest IH]; simpl.
  - split; [intros _ a Ha; by apply elem_of_nil in Ha | done].
  - case_bool_decide as Hb.
    + split; [discriminate|]. intros H. destruct (H b); [left | done].
    + rewrite IH. split.
      * intros H a Ha. apply elem_of_cons in Ha as [->|Ha]; auto.
      * intros H a Ha. apply H. by right.
Qed.

Lemma find_home_account_id_Some (v : option string)
    (accounts : list (gmap string string)) (a : gmap string string) :
  find (λ a, bool_decide (a !! "home_account_id" = v)) accounts = Some a →
  a ∈ accounts ∧ a !! "home_account_id" = v.
Proof.
  induction accounts as [|b rest IH]; simpl; [discriminate|].
  case_bool_decide as Hb.
  - intros [= <-]. split; [left | done].
  - intros H. destruct (IH H). split; [by right | done].
Qed.

(** C8.  When the active identifier (a non-empty string) is carried by
    no account of the credential store, [get_active_account] returns no
    account and resets the pointer to [None]; when some account carries
    it, the call returns such an account, one of the store, and leaves
    the state alone. *)
Theorem get_active_account_resolves (m : manager) (ident : string) :
  _active_account_id m = Some ident →
  ident ≠ "" →
  ((∀ a, a ∈ app_accounts (_app m) → a !! "home_account_id" ≠ Some ident) →
     get_active_account m = (Return None, set_active_account_id None m)) ∧
  ((∃ a, a ∈ app_accounts (_app m) ∧ a !! "home_account_id" = Some ident) →
     ∃ a, get_active_account m = (Return (Some a), m) ∧
          a ∈ app_accounts (_app m) ∧ a !! "home_account_id" = Some ident).
Proof.
  intros Hact Hne. unfold get_active_account. rewrite Hact.
  rewrite (truthy_of_nonempty _ Hne). simpl.
  split.
  - intros Hnone.
    apply find_home_account_id_None in Hnone. by rewrite Hnone.
  - intros (a & Ha & Hid).
    destruct (find _ _) as [b|] eqn:Hfind.
    + apply find_home_account_id_Some in Hfind as [Hb Hbid]. eauto.
    + exfalso. eapply find_home_account_id_None in Hfind; eauto.
Qed.

(** Without a pointer nothing is resolved and nothing changes. *)
Lemma get_active_account_unset (m : manager) :
  truthy (_active_account_id m) = false →
  get_active_account m = (Return None, m).
Proof. intros H. unfold get_active_account. by rewrite H. Qed.

(** Whatever the state, the call leaves everything but the pointer. *)
Lemma get_active_account_frame (m : manager) :
  ∃ v, snd (get_active_account m) = set_active_account_id v m.
Proof.
  unfold get_active_account.
  destruct (negb _); simpl.
  - exists (_active_account_id m). by rewrite set_active_account_id_same.
  - destruct (find _ _); simpl; [|eauto].
    exists (_active_account_id m). by rewrite set_active_account_id_same.
Qed.

(** An account that was resolved is a non-empty record. *)
Lemma get_active_account_nonempty (m : manager) (a : gmap string string) :
  fst (get_active_account m) = Return (Some a) → nonempty a = true.
Proof.
  unfold get_active_account.
  destruct (truthy (_active_account_id m)) eqn:Ht; simpl; [|discriminate].
  destruct (find _ _) as [b|] eqn:Hfind; simpl; [|discriminate].
  intros [= ->]. apply find_home_account_id_Some in Hfind as [_ Hid].
  apply truthy_Some in Ht as (s & Hs & _). rewrite Hs in Hid.
  unfold nonempty. rewrite bool_decide_eq_false_2; [done|].
  intros ->. by rewrite lookup_empty in Hid.
Qed.

(** ** Silent token acquisition *)

(** C4.  With no account in the credential store and no active pointer,
    [acquire_token_silent] raises [AuthenticationError] with the message
    that sends the caller to the authentication tools.  It asks the
    provider nothing (the statement holds for every provider) and
    leaves the state as it was. *)
Theorem acquire_token_silent_not_authenticated
    (json_dumps : response → string)
    (provider : manager → gmap string string → provider_answer)
    (persist : app → outcome unit * app) (m : manager) :
  app_accounts (_app m) = [] →
  _active_account_id m = None →
  acquire_token_silent json_dumps provider persist m =
    (Raise (Exn AuthenticationError
       "No active Microsoft account selected. Use the authentication tools to sign in and select an account."),
     m).
Proof.
  intros Hacc Hact.
  unfold acquire_token_silent, bind.
  rewrite get_active_account_unset by (by rewrite Hact).
  simpl. unfold gets, bind. simpl. by rewrite Hacc.
Qed.

(** The same failure meets every state in which nothing resolves and
    the store does not hold exactly one account. *)
Lemma acquire_token_silent_ambiguous
    (json_dumps : response → string)
    (provider : manager → gmap string string → provider_answer)
    (persist : app → outcome unit * app) (m : manager) :
  fst (get_active_account m) = Return None →
  length (app_accounts (_app m)) ≠ 1%nat →
  ∃ msg, fst (acquire_token_silent json_dumps provider persist m) =
         Raise (Exn AuthenticationError msg).
Proof.
  intros Hnone Hlen.
  destruct (get_active_account_frame m) as [v Hv].
  unfold acquire_token_silent, bind.
  destruct (get_active_account m) as [o m'] eqn:Hget. simpl in *. subst.
  unfold gets, bind. simpl.
  destruct (app_accounts (_app m)) as [|a [|b rest]]; simpl in *; eauto.
  done.
Qed.

(** C10.  When no active account resolves and the store holds exactly
    one account, [acquire_token_silent] points the session at that
    account before it asks the provider: the provider is consulted in
    the state [m1] whose pointer is already the account's identifier.
    When the provider's answer is unusable the call raises
    [AuthenticationError], and the pointer stays on that account. *)
Theorem acquire_token_silent_selects_before_failing
    (json_dumps : response → string)
    (provider : manager → gmap string string → provider_answer)
    (persist : app → outcome unit * app) (m : manager)
    (only : gmap string string) (result : option response) (a' : app) :
  fst (get_active_account m) = Return None →
  app_accounts (_app m) = [only] →
  let m1 := set_active_account_id (only !! "home_account_id") m in
  provider m1 only = (Return result, a') →
  unusable result = true →
  ∃ msg,
    acquire_token_silent json_dumps provider persist m =
      (Raise (Exn AuthenticationError msg), set_app a' m1) ∧
    _active_account_id (snd (acquire_token_silent json_dumps provider persist m))
      = only !! "home_account_id".
Proof.
  intros Hnone Hacc m1 Hprov Hbad.
  destruct (get_active_account_frame m) as [v Hv].
  unfold acquire_token_silent, bind.
  destruct (get_active_account m) as [o m'] eqn:Hget. simpl in *. subst o m'.
  unfold gets, bind, modify, ret, ask. simpl. rewrite Hacc. simpl.
  change (set_active_account_id (only !! "home_account_id")
            (set_active_account_id v m)) with m1.
  rewrite Hprov, Hbad. unfold raise. eauto.
Qed.

(** ** Frame conditions *)

Section Keeps.
Context {B : Type} (f : manager → B).

Lemma keeps_ret {A} (a : A) : keeps f (ret a).
Proof. done. Qed.

Lemma keeps_raise {A} c msg : keeps f (@raise A c msg).
Proof. done. Qed.

Lemma keeps_gets {A} (g : manager → A) : keeps f (gets g).
Proof. done. Qed.

Lemma keeps_modify (g : manager → manager) :
  (∀ m, f (g m) = f m) → keeps f (modify g).
Proof. intros H m. apply H. Qed.

Lemma keeps_bind {A C} (x : M A) (k : A → M C) :
  keeps f x → (∀ a, keeps f (k a)) → keeps f (bind x k).
Proof.
  intros Hx Hk m. unfold bind.
  destruct (x m) as [[a|e] m'] eqn:Hxm.
  - rewrite Hk. specialize (Hx m). by rewrite Hxm in Hx.
  - specialize (Hx m). by rewrite Hxm in Hx.
Qed.

Lemma keeps_ask (answer : manager → provider_answer) :
  (∀ a m, f (set_app a m) = f m) → keeps f (ask answer).
Proof. intros H m. unfold ask. destruct (answer m). apply H. Qed.

Lemma keeps_save_cache (persist : app → outcome unit * app) :
  (∀ a m, f (set_app a m) = f m) →
  (∀ l s m, f (log l s m) = f m) →
  keeps f (_save_cache persist).
Proof.
  intros Happ Hlog m. unfold _save_cache.
  destruct (has_state_changed _); [|done].
  destruct (persist _) as [[[]|e] a]; simpl; [apply Happ|].
  destruct (issubclass _ _); simpl; [|apply Happ].
  by rewrite Hlog, Happ.
Qed.
End Keeps.

End Resolution.

Ltac keeps_step :=
  repeat first
    [ match goal with |- ∀ _, _ => intro end
    | apply keeps_bind
    | apply keeps_ret | apply keeps_raise | apply keeps_gets
    | apply keeps_modify; done
    | apply keeps_ask; done
    | apply keeps_save_cache; done
    | match goal with
      | |- keeps _ (if ?b then _ else _) => destruct b
      | |- keeps _ (match ?x with _ => _ end) => destruct x
      end ].

Section ManagerProperties.

Context {str_lower : StrLower}.

(** The methods of the account directory and the token service never
    touch the pending flows. *)
Lemma keeps_get_active_account {B} (f : manager → B) :
  (∀ v m, f (set_active_account_id v m) = f m) → keeps f get_active_account.
Proof.
  intros H m. destruct (get_active_account_frame m) as [v ->]. apply H.
Qed.

Lemma keeps_list_accounts {B} (f : manager → B) :
  (∀ v m, f (set_active_account_id v m) = f m) → keeps f list_accounts.
Proof.
  intros H m. unfold list_accounts.
  destruct (_ && _); simpl; [apply H | done].
Qed.

Lemma keeps_set_active_account_loop {B} (f : manager → B) home_id uname accounts :
  (∀ v m, f (set_active_account_id v m) = f m) →
  keeps f (set_active_account_loop home_id uname accounts).
Proof.
  intros H. induction accounts as [|a rest IH]; simpl; keeps_step.
Qed.

Lemma keeps_set_active_account {B} (f : manager → B) home_id uname :
  (∀ v m, f (set_active_account_id v m) = f m) →
  keeps f (set_active_account home_id uname).
Proof.
  intros H. unfold set_active_account. keeps_step.
  by apply keeps_set_active_account_loop.
Qed.

Lemma keeps_get_active_account_summary {B} (f : manager → B) :
  (∀ v m, f (set_active_account_id v m) = f m) →
  keeps f get_active_account_summary.
Proof.
  intros H. unfold get_active_account_summary. keeps_step.
  by apply keeps_get_active_account.
Qed.

Lemma keeps_get_context {B} (f : manager → B) :
  (∀ v m, f (set_active_account_id v m) = f m) → keeps f get_context.
Proof.
  intros H. unfold get_context. keeps_step.
  - by apply keeps_get_active_account.
  - by apply keeps_list_accounts.
Qed.

Lemma keeps_acquire_token_silent {B} (f : manager → B)
    json_dumps provider persist :
  (∀ v m, f (set_active_account_id v m) = f m) →
  (∀ a m, f (set_app a m) = f m) →
  (∀ l s m, f (log l s m) = f m) →
  keeps f (acquire_token_silent json_dumps provider persist).
Proof.
  intros H1 H2 H3. unfold acquire_token_silent. keeps_step.
  by apply keeps_get_active_account.
Qed.

Lemma keeps_select_account {B} (f : manager → B) preferred :
  (∀ v m, f (set_active_account_id v m) = f m) →
  keeps f (select_account preferred).
Proof. intros H. unfold select_account. keeps_step. Qed.

(** ** The device-flow coordinator *)

(** Whatever becomes of the exchange, a completion call leaves the
    pending flows without the identifier it was given, and changes no
    other entry. *)
Lemma complete_device_login_pending flow_id timeout provider persist m :
  _pending_device_flows (snd (complete_device_login flow_id timeout provider persist m))
  = delete flow_id (_pending_device_flows m).
Proof.
  unfold complete_device_login.
  lazymatch goal with
  | |- _pending_device_flows (snd (bind ?x ?k m)) = _ => set (K := k)
  end.
  assert (HK : ∀ fl, keeps _pending_device_flows (K fl)).
  { intros fl. unfold K. keeps_step. }
  unfold bind. by rewrite HK.
Qed.

(** Nothing pending under the identifier: the call raises at once. *)
Lemma complete_device_login_not_pending flow_id timeout provider persist m :
  _pending_device_flows m !! flow_id = None →
  complete_device_login flow_id timeout provider persist m =
    (Raise (Exn AuthenticationFlowNotFound
       "The requested device flow does not exist or has already been completed."),
     m).
Proof.
  intros Hnone. unfold complete_device_login, bind. rewrite Hnone. unfold raise.
  rewrite (delete_id _ _ Hnone). by rewrite set_pending_device_flows_same.
Qed.

(** C6.  A completion call for an identifier that is not pending raises
    [AuthenticationFlowNotFound], with the message of the source; the
    class of the exception is not [AuthenticationError].  The provider
    is not consulted (the statement holds for every provider) and the
    state is left as it was. *)
Theorem complete_device_login_unknown_flow
    (flow_id : string) (timeout : option Z)
    (provider : manager → gmap string pyval → option Z → provider_answer)
    (persist : app → outcome unit * app) (m : manager) :
  _pending_device_flows m !! flow_id = None →
  ∃ e, complete_device_login flow_id timeout provider persist m = (Raise e, m) ∧
       e = Exn AuthenticationFlowNotFound
             "The requested device flow does not exist or has already been completed." ∧
       exn_class e ≠ AuthenticationError.
Proof.
  intros Hnone. eexists. split; [|split; [reflexivity | discriminate]].
  by apply complete_device_login_not_pending.
Qed.

(** A pending, non-empty flow is handed to the provider in a state from
    which the identifier is already gone: what the provider would answer
    in any state that still lists the identifier is irrelevant to the
    call. *)
Lemma complete_device_login_removes_first
    flow_id timeout provider provider' persist m :
  (∀ st fl t, _pending_device_flows st !! flow_id = None →
              provider st fl t = provider' st fl t) →
  complete_device_login flow_id timeout provider persist m =
  complete_device_login flow_id timeout provider' persist m.
Proof.
  intros Hagree. unfold complete_device_login, bind. simpl.
  destruct (_pending_device_flows m !! flow_id) as [fl|]; [|done].
  destruct (bool_decide (fl = ∅)); [done|].
  unfold ask. rewrite Hagree; [done|]. simpl. apply lookup_delete_eq.
Qed.

Lemma start_device_login_pending initiate uuid4 m flow_id :
  uuid4 ≠ flow_id →
  _pending_device_flows (snd (start_device_login initiate uuid4 m)) !! flow_id
  = _pending_device_flows m !! flow_id.
Proof.
  intros Hne. unfold start_device_login, bind.
  destruct initiate as [flow|e]; [|done].
  destruct (negb _); [done|]. simpl. by rewrite lookup_insert_ne.
Qed.

Lemma step_not_pending json_dumps (c : call) (m : manager) (flow_id : string) :
  ¬ issues flow_id c →
  _pending_device_flows m !! flow_id = None →
  _pending_device_flows (step json_dumps c m) !! flow_id = None.
Proof.
  intros Hc Hnone. destruct c; simpl.
  - by rewrite keeps_list_accounts.
  - by rewrite keeps_get_active_account.
  - by rewrite keeps_set_active_account.
  - by rewrite keeps_get_active_account_summary.
  - by rewrite keeps_acquire_token_silent.
  - rewrite start_device_login_pending; [done|]. intros ->. by apply Hc.
  - rewrite complete_device_login_pending.
    apply lookup_delete_None. by right.
  - by rewrite keeps_get_context.
  - done.
Qed.

Lemma session_not_pending json_dumps (calls : list call) (m : manager)
    (flow_id : string) :
  Forall (λ c, ¬ issues flow_id c) calls →
  _pending_device_flows m !! flow_id = None →
  _pending_device_flows (session json_dumps calls m) !! flow_id = None.
Proof.
  intros Hcalls. revert m.
  induction Hcalls as [|c calls Hc _ IH]; intros m Hnone; [done|].
  simpl. apply IH. by apply step_not_pending.
Qed.

(** C2.  A flow identifier handed out by [start_device_login] is pending
    afterwards, with a non-empty flow.  A completion call for it,
    whenever it comes, consults the provider only in states from which
    the identifier is already gone, and leaves it absent whatever the
    provider answers or raises.  From then on, through every session in
    which the generator does not hand out the same identifier again, a
    completion call for it raises [AuthenticationFlowNotFound]. *)
Theorem complete_device_login_single_use
    (json_dumps : response → string)
    (initiate : outcome (gmap string pyval)) (uuid4 : string)
    (m0 m1 : manager) (instructions : gmap string pyval)
    (timeout timeout' : option Z)
    (provider provider' : manager → gmap string pyval → option Z → provider_answer)
    (persist persist' : app → outcome unit * app) (before later : list call) :
  start_device_login initiate uuid4 m0 = (Return instructions, m1) →
  Forall (λ c, ¬ issues uuid4 c) later →
  let mb := session json_dumps before m1 in
  let m2 := snd (complete_device_login uuid4 timeout provider persist mb) in
  instructions !! "flow_id" = Some (PStr uuid4) ∧
  (∃ flow, _pending_device_flows m1 !! uuid4 = Some flow ∧ flow ≠ ∅) ∧
  (∀ other,
     (∀ st fl t, _pending_device_flows st !! uuid4 = None →
                 other st fl t = provider st fl t) →
     complete_device_login uuid4 timeout other persist mb =
     complete_device_login uuid4 timeout provider persist mb) ∧
  _pending_device_flows m2 !! uuid4 = None ∧
  ∃ e, fst (complete_device_login uuid4 timeout' provider' persist'
              (session json_dumps later m2)) = Raise e ∧
       exn_class e = AuthenticationFlowNotFound.
Proof.
  intros Hstart Hlater mb m2.
  assert (Hgone : _pending_device_flows m2 !! uuid4 = None).
  { unfold m2. rewrite complete_device_login_pending. apply lookup_delete_eq. }
  unfold start_device_login, bind in Hstart.
  destruct initiate as [flow|e]; [|discriminate].
  destruct (bool_decide (is_Some (flow !! "user_code"))) eqn:Hcode;
    simpl in Hstart; [|discriminate].
  injection Hstart as <- <-.
  split; [by rewrite lookup_insert_eq|].
  split.
  { exists flow. simpl. rewrite lookup_insert_eq. split; [done|].
    intros ->. apply bool_decide_eq_true in Hcode.
    rewrite lookup_empty in Hcode. by destruct Hcode. }
  split; [intros other Hother; by apply complete_device_login_removes_first|].
  split; [done|].
  eexists. rewrite complete_device_login_not_pending; [done|].
  by apply session_not_pending.
Qed.

(** ** Selecting the active account *)

Lemma lower_empty (s : string) : lower s = "" → s = "".
Proof. apply lower_empty_iff. Qed.

Lemma lower_of_empty : lower "" = "".
Proof. by apply lower_empty_iff. Qed.

(** An account that answers a selector is a non-empty record. *)
Lemma selects_nonempty home_id uname a :
  selects home_id uname a = true → nonempty a = true.
Proof.
  unfold selects, nonempty. intros H.
  rewrite bool_decide_eq_false_2; [done|]. intros ->.
  rewrite !lookup_empty in H. simpl in H.
  apply orb_true_iff in H as [H|H]; apply andb_true_iff in H as [Ht H].
  - apply truthy_Some in Ht as (s & -> & _). by apply bool_decide_eq_true in H.
  - apply truthy_Some in Ht as (s & -> & Hs).
    apply bool_decide_eq_true in H. simpl in H.
    rewrite lower_of_empty in H. symmetry in H. by apply lower_empty in H.
Qed.

(** The loop stops at the first account that answers the selector,
    points the session at it and returns its summary, flagged active. *)
Lemma set_active_account_loop_find home_id uname accounts m :
  set_active_account_loop home_id uname accounts m =
  match find (selects home_id uname) accounts with
  | Some a =>
      let m' := set_active_account_id (a !! "home_account_id") m in
      (Return (_serialize_account m' (Some a)), m')
  | None =>
      (Raise (Exn AuthenticationError
                "No cached account matches the provided identifier"), m)
  end.
Proof.
  induction accounts as [|a rest IH]; [done|].
  cbn [set_active_account_loop find]. unfold selects at 1.
  destruct (truthy home_id && bool_decide (a !! "home_account_id" = home_id))
    eqn:Hid; cbn [orb].
  - apply andb_true_iff in Hid as [Ht Hid]. apply bool_decide_eq_true in Hid.
    assert (Hne : nonempty a = true).
    { apply (selects_nonempty home_id None). unfold selects.
      by rewrite Ht, bool_decide_eq_true_2. }
    unfold bind, modify, gets, ret. cbn. rewrite Hne, <- Hid. cbn.
    by rewrite !bool_decide_eq_true_2.
  - destruct (truthy uname && _) eqn:Hun.
    + assert (Hne : nonempty a = true).
      { apply (selects_nonempty None uname). unfold selects. by rewrite Hun. }
      unfold bind, modify, gets, ret. cbn. rewrite Hne. cbn.
      by rewrite !bool_decide_eq_true_2.
    + apply IH.
Qed.


Lemma find_selects_Some home_id uname (accounts : list (gmap string string)) a :
  find (selects home_id uname) accounts = Some a →
  a ∈ accounts ∧ selects home_id uname a = true.
Proof.
  induction accounts as [|b rest IH]; simpl; [discriminate|].
  destruct (selects home_id uname b) eqn:Hb.
  - intros [= <-]. split; [left | done].
  - intros H. destruct (IH H). split; [by right | done].
Qed.




(** ** At most one active account *)

Lemma active_count_zero (l : list AccountSummary) :
  (∀ s, s ∈ l → is_active s = false) → active_count l = 0.
Proof.
  induction l as [|s rest IH]; intros H; [done|]. simpl.
  rewrite (H s) by left. rewrite IH; [done|]. intros t Ht. apply H. by right.
Qed.

(** Among summaries with distinct identifiers, if being active pins the
    identifier down, at most one is active. *)
Lemma active_count_le_1 (l : list AccountSummary) :
  NoDup (map home_account_id l) →
  (∀ s t, s ∈ l → t ∈ l → is_active s = true → is_active t = true →
          home_account_id s = home_account_id t) →
  active_count l ≤ 1.
Proof.
  induction l as [|s rest IH]; intros Hnd Hsame; simpl; [lia|].
  apply NoDup_cons in Hnd as [Hs Hnd].
  destruct (is_active s) eqn:Hact.
  - rewrite active_count_zero; [lia|].
    intros t Ht. destruct (is_active t) eqn:Htact; [|done].
    exfalso. apply Hs.
    rewrite (Hsame s t); [| left | by right | done | done].
    apply list_elem_of_fmap. eauto.
  - simpl. apply IH; [done|].
    intros t u Ht Hu. apply Hsame; by right.
Qed.

(** Summaries inherit the distinctness of the identifiers they list. *)
Lemma summaries_NoDup (F : gmap string string → option AccountSummary)
    (accounts : list (gmap string string)) :
  (∀ a s, F a = Some s → home_account_id s = listed_id a) →
  NoDup (map listed_id accounts) →
  NoDup (map home_account_id (omap F accounts)).
Proof.
  intros HF. induction accounts as [|a rest IH]; intros Hnd; simpl.
  - constructor.
  - apply NoDup_cons in Hnd as [Ha Hnd].
    destruct (F a) as [s|] eqn:Hs; simpl; [|by apply IH].
    apply NoDup_cons. split; [|by apply IH].
    intros Hin. apply Ha.
    apply list_elem_of_fmap in Hin as (t & Hid & Ht).
    apply list_elem_of_omap in Ht as (b & Hb & HFb).
    apply list_elem_of_fmap. exists b. split; [|done].
    by rewrite <- (HF _ _ Hs), <- (HF _ _ HFb).
Qed.

Lemma omap_id_map_fmap {A B} (f : B → B) (g : A → option B) (l : list A) :
  omap id (map (fmap f) (map g l)) = omap (λ a, f <$> g a) l.
Proof.
  induction l as [|a rest IH]; [done|]. csimpl. rewrite <- IH. by destruct (g a).
Qed.

Lemma _serialize_account_id (m : manager) (a : gmap string string) s :
  _serialize_account m (Some a) = Some s →
  home_account_id s = listed_id a ∧
  is_active s = bool_decide (a !! "home_account_id" = _active_account_id m).
Proof.
  unfold _serialize_account. destruct (nonempty a); [|discriminate].
  by intros [= <-].
Qed.

(** The serialization helper, applied to every account of a store with
    distinct identifiers, flags at most one of them. *)
Lemma _serialize_account_at_most_one (m : manager)
    (accounts : list (gmap string string)) :
  NoDup (map listed_id accounts) →
  active_count (omap (λ a, _serialize_account m (Some a)) accounts) ≤ 1.
Proof.
  intros Hnd. apply active_count_le_1.
  - apply summaries_NoDup; [|done].
    intros a s Hs. by apply _serialize_account_id in Hs as [? _].
  - intros s t Hs Ht Hsa Hta.
    apply list_elem_of_omap in Hs as (a & _ & Hs).
    apply list_elem_of_omap in Ht as (b & _ & Ht).
    apply _serialize_account_id in Hs as [-> Hs].
    apply _serialize_account_id in Ht as [-> Ht].
    rewrite Hsa in Hs. rewrite Hta in Ht.
    symmetry in Hs, Ht.
    apply bool_decide_eq_true in Hs. apply bool_decide_eq_true in Ht.
    unfold listed_id. by rewrite Hs, Ht.
Qed.

(** A listing never raises, and over a store with distinct identifiers
    it flags at most one account, in whatever state it is requested. *)
Lemma list_accounts_at_most_one (m : manager) :
  NoDup (map listed_id (app_accounts (_app m))) →
  ∃ summaries, fst (list_accounts m) = Return summaries ∧
               active_count summaries ≤ 1.
Proof.
  intros Hnd. unfold list_accounts. simpl.
  destruct (negb (truthy (_active_account_id m)) && _) eqn:Hauto; simpl.
  - apply andb_true_iff in Hauto as [_ Hlen].
    apply bool_decide_eq_true in Hlen.
    destruct (app_accounts (_app m)) as [|a [|b rest]]; try discriminate.
    simpl. destruct (nonempty a); simpl.
    + eexists. split; [reflexivity|]. simpl. lia.
    + eexists. split; [reflexivity|]. simpl. lia.
  - eexists. split; [reflexivity|].
    rewrite omap_id_map_fmap.
    apply active_count_le_1.
    + apply summaries_NoDup; [|done].
      intros a s Hs. apply fmap_Some in Hs as (s0 & Hs0 & ->).
      by apply _serialize_account_id in Hs0 as [? _].
    + intros s t Hs Ht Hsa Hta.
      apply list_elem_of_omap in Hs as (a & _ & Hs).
      apply list_elem_of_omap in Ht as (b & _ & Ht).
      apply fmap_Some in Hs as (s0 & _ & ->).
      apply fmap_Some in Ht as (t0 & _ & ->).
      simpl in *.
      apply bool_decide_eq_true in Hsa. apply bool_decide_eq_true in Hta.
      congruence.
Qed.

(** C9.  After any session, from any initial state, if the identifiers
    under which the accounts of the store are listed are pairwise
    distinct, then [list_accounts] returns a list with at most one entry
    flagged active, and so does [_serialize_account] over the accounts
    of the store. *)
Theorem at_most_one_active (json_dumps : response → string)
    (calls : list call) (m0 : manager) :
  let m := session json_dumps calls m0 in
  NoDup (map listed_id (app_accounts (_app m))) →
  (∃ summaries, fst (list_accounts m) = Return summaries ∧
                active_count summaries ≤ 1) ∧
  active_count (omap (λ a, _serialize_account m (Some a))
                     (app_accounts (_app m))) ≤ 1.
Proof.
  intros m Hnd. split.
  - by apply list_accounts_at_most_one.
  - by apply _serialize_account_at_most_one.
Qed.

(** ** The auto-selection of a sole account by [list_accounts] *)

(** With the pointer unset (or empty) and one account in the store,
    a listing points the session at that account and reports it active;
    the next listing reports the same and changes nothing. *)
Lemma list_accounts_auto_selects (m : manager) (a : gmap string string)
    (ident : string) :
  truthy (_active_account_id m) = false →
  app_accounts (_app m) = [a] →
  a !! "home_account_id" = Some ident →
  ident ≠ "" →
  let m' := set_active_account_id (Some ident) m in
  ∃ s, list_accounts m = (Return [s], m') ∧
       is_active s = true ∧ home_account_id s = ident ∧
       list_accounts m' = (Return [s], m').
Proof.
  intros Hunset Hacc Hid Hne m'.
  assert (Hnonempty : nonempty a = true).
  { unfold nonempty. rewrite bool_decide_eq_false_2; [done|].
    intros ->. by rewrite lookup_empty in Hid. }
  pose proof (truthy_of_nonempty _ Hne) as Hset.
  unfold list_accounts, m'.
  cbn [get_accounts _app _active_account_id set_active_account_id].
  rewrite Hunset, Hset, Hacc.
  cbn [negb andb length bool_decide map lookup].
  rewrite bool_decide_eq_true_2 by done.
  unfold _serialize_account. rewrite Hnonempty, Hid. simpl. rewrite ?Hid.
  eexists. split; [reflexivity|]. split; [done|]. split; [done|].
  unfold set_is_active. simpl. by rewrite !bool_decide_eq_true_2.
Qed.

(** With the pointer on an identifier that no account carries, the
    listing takes the other branch: the sole account is reported
    inactive and the pointer stays where it was. *)
Lemma list_accounts_stale_pointer_general (m : manager)
    (a : gmap string string) :
  truthy (_active_account_id m) = true →
  app_accounts (_app m) = [a] →
  nonempty a = true →
  a !! "home_account_id" ≠ _active_account_id m →
  ∃ s, list_accounts m = (Return [s], m) ∧ is_active s = false.
Proof.
  intros Hset Hacc Hnonempty Hstale.
  unfold list_accounts. simpl. rewrite Hset, Hacc. simpl.
  rewrite Hnonempty. simpl. eexists. split; [reflexivity|]. simpl.
  apply bool_decide_eq_false_2. intros Heq.
  apply truthy_Some in Hset as (x & Hx & Hxne). rewrite Hx in *.
  injection Heq as Heq.
  destruct (a !! "home_account_id") as [y|]; simpl in Heq; congruence.
Qed.

(** C1, at the input where the code departs from it.  The pointer names
    an account that is no longer in the store, so no active account
    resolves; the store holds alice alone.  [list_accounts] reports her
    inactive and leaves the pointer on the vanished identifier. *)
Theorem list_accounts_stale_pointer_not_promoted :
  let m := manager_on [alice] (Some "uid-carol.tenant-1") in
  fst (get_active_account m) = Return None ∧
  list_accounts m =
    (Return [mkAccountSummary "alice@example.com" None "uid-alice.tenant-1"
               (Some "login.microsoftonline.com") None false],
     m).
Proof. split; reflexivity. Qed.

(** ** Construction *)

(** X16.  A missing file, an empty file, and a file that cannot be
    read for a reason the operating system reports do not decide the
    construction.  The library's constructor is given an empty token
    cache and the authority of the tenant; if it returns, the manager
    is built around the application it returns, with the path object
    of the cache path, no pointer, nothing pending and at most one
    logged line, a warning; if it raises, the construction raises the
    same exception. *)
Lemma init_tolerates (deserialize : string → outcome (list (gmap string string)))
    (Path : string → string)
    (PublicClientApplication :
       string → string → list (gmap string string) → outcome app)
    (client_id tenant_id : string) (scopes : list string) (cache_path : string)
    (file : cache_file) :
  client_id ≠ "" →
  file = Missing ∨ file = Present (Return "") ∨
    (∃ e, file = Present (Raise e) ∧ issubclass (exn_class e) OSError = true) →
  let authority :=
    "https://login.microsoftonline.com/"
    ++ (if bool_decide (tenant_id = "") then "common" else tenant_id) in
  ∃ logger : list (level * string),
    length logger ≤ 1 ∧ Forall (λ entry, fst entry = WARNING) logger ∧
    __init__ deserialize Path PublicClientApplication
      client_id tenant_id scopes cache_path file =
      match PublicClientApplication client_id authority [] with
      | Return a => Return (mkManager scopes (Path cache_path) ∅ None a logger)
      | Raise e => Raise e
      end.
Proof.
  intros Hclient Hfile authority. unfold __init__.
  rewrite bool_decide_eq_false_2 by done. fold authority.
  destruct Hfile as [-> | [-> | (e & -> & He)]].
  - exists []. split; [simpl; lia|]. split; [constructor | done].
  - exists []. split; [simpl; lia|]. split; [constructor | done].
  - rewrite He.
    exists [(WARNING, "Unable to read token cache: " ++ exn_message e)].
    split; [simpl; lia|]. split; [by repeat constructor | done].
Qed.

(** Text that the token cache refuses to deserialize fails the
    construction, unless the refusal is an [OSError]. *)
Lemma init_rejects_malformed_cache
    (deserialize : string → outcome (list (gmap string string)))
    (Path : string → string)
    (PublicClientApplication :
       string → string → list (gmap string string) → outcome app)
    (client_id tenant_id : string) (scopes : list string) (cache_path : string)
    (cache_data : string) (e : exn) :
  client_id ≠ "" →
  cache_data ≠ "" →
  deserialize cache_data = Raise e →
  issubclass (exn_class e) OSError = false →
  __init__ deserialize Path PublicClientApplication
       client_id tenant_id scopes cache_path
       (Present (Return cache_data)) = Raise e.
Proof.
  intros Hclient Hdata Hde He. unfold __init__.
  rewrite !bool_decide_eq_false_2 by done. by rewrite Hde, He.
Qed.

(** C3, at the input where the code departs from it.  The cache file
    exists and holds bytes that are not UTF-8, so [read_text] raises
    [UnicodeDecodeError], a [ValueError] and not an [OSError]: the
    handler does not apply and the constructor raises, whatever the
    token cache would deserialize and whatever the library's
    constructor, which is not reached, would do. *)
Theorem init_undecodable_cache_raises
    (deserialize : string → outcome (list (gmap string string)))
    (Path : string → string)
    (PublicClientApplication :
       string → string → list (gmap string string) → outcome app) :
  issubclass UnicodeDecodeError OSError = false ∧
  __init__ deserialize Path PublicClientApplication
       "client-id" "" ["User.Read"] "/home/user/.cache/token_cache.json"
       (Present (Raise (Exn UnicodeDecodeError
          "'utf-8' codec can't decode byte 0xff in position 0: invalid start byte")))
  = Raise (Exn UnicodeDecodeError
      "'utf-8' codec can't decode byte 0xff in position 0: invalid start byte").
Proof. split; reflexivity. Qed.

(** ** The account a completed login settles on *)

(** An account the library lists for a username is a non-empty record. *)
Lemma get_accounts_username_nonempty (preferred : option string) (store : app)
    (a : gmap string string) :
  truthy preferred = true →
  a ∈ get_accounts preferred store →
  nonempty a = true.
Proof.
  intros Ht Ha. pose proof Ht as Ht'.
  apply truthy_Some in Ht' as (u & -> & Hu).
  unfold get_accounts in Ha. rewrite Ht in Ha.
  apply list_elem_of_filter in Ha as [Hmatch _].
  unfold nonempty. rewrite bool_decide_eq_false_2; [done|]. intros ->.
  rewrite lookup_empty in Hmatch. simpl in Hmatch.
  symmetry in Hmatch. rewrite lower_of_empty in Hmatch.
  by apply lower_empty in Hmatch.
Qed.

(** The selection block computes [selection] and points the session at
    the account it found; with an empty store it finds none and leaves
    the pointer alone. *)
Lemma select_account_selection (preferred : option string) (m : manager) :
  select_account preferred m =
  (Return (selection (_app m) preferred),
   match selection (_app m) preferred with
   | Some a => set_active_account_id (a !! "home_account_id") m
   | None => m
   end).
Proof.
  unfold select_account, selection, bind, gets, modify, ret.
  destruct (truthy preferred) eqn:Ht.
  - destruct (get_accounts preferred (_app m)) as [|first rest] eqn:Hmatching.
    + simpl. by destruct (last (app_accounts (_app m))).
    + assert (Hne : nonempty first = true).
      { apply (get_accounts_username_nonempty preferred (_app m)); [done|].
        rewrite Hmatching. left. }
      simpl. by rewrite Hne.
  - simpl. by destruct (last (app_accounts (_app m))).
Qed.

(** The order in which the provider's answer is searched for a
    username. *)
Lemma preferred_username_of_order (r : response) :
  preferred_username_of r =
  let from_account := account r ≫= λ info, info !! "username" in
  let claims := default ∅ (id_token_claims r) in
  if truthy from_account then from_account
  else if truthy (claims !! "preferred_username")
       then claims !! "preferred_username"
       else claims !! "email".
Proof.
  unfold preferred_username_of, py_or, dict_truthy.
  destruct (account r) as [info|]; simpl; [|done].
  unfold nonempty. case_bool_decide as Hinfo; simpl.
  - subst info. by rewrite lookup_empty.
  - by destruct (truthy (info !! "username")).
Qed.

(** A granted login, as one equation. *)
Lemma complete_device_login_granted
    (flow_id : string) (timeout : option Z)
    (provider : manager → gmap string pyval → option Z → provider_answer)
    (persist : app → outcome unit * app)
    (m m2 : manager) (fl : gmap string pyval) (r : response) (a' : app) :
  _pending_device_flows m !! flow_id = Some fl →
  fl ≠ ∅ →
  let m1 := set_pending_device_flows (delete flow_id (_pending_device_flows m)) m in
  provider m1 fl timeout = (Return (Some r), a') →
  is_Some (access_token r) →
  _save_cache persist (set_app a' m1) = (Return tt, m2) →
  let chosen := selection (_app m2) (preferred_username_of r) in
  let m3 := match chosen with
            | Some a => set_active_account_id (a !! "home_account_id") m2
            | None => m2
            end in
  let summary := set_is_active true <$> _serialize_account m3 chosen in
  complete_device_login flow_id timeout provider persist m =
    (Return (mkLoginResult true summary (expires_in r) (scope r) (token_type r)),
     log INFO ("Device login completed for account "
               ++ match summary with Some s => username s | None => "unknown" end)
         m3).
Proof.
  intros Hpending Hfl m1 Hprov Htoken Hsave chosen m3 summary.
  assert (Husable : unusable (Some r) = false).
  { unfold unusable, response_truthy. destruct Htoken as [t Ht].
    by rewrite Ht. }
  unfold complete_device_login, bind. rewrite Hpending.
  rewrite bool_decide_eq_false_2 by done.
  fold m1. unfold ask. rewrite Hprov, Husable, Hsave.
  rewrite select_account_selection. reflexivity.
Qed.

(** The specification's sentence fails under either reading of
    recency, whatever the interpreter's [str.lower]: alice's two
    accounts carry the same address, and the second grant names
    nobody. *)
Lemma claimed_selection_refuted :
  ¬ claimed_login_selection last ∧ ¬ claimed_login_selection head.
Proof.
  assert (Hlisted : ∀ store,
    app_accounts store = [alice; alice_personal] →
    get_accounts (Some "alice@example.com") store = [alice; alice_personal]).
  { intros store Hstore. unfold get_accounts. cbn [truthy].
    rewrite bool_decide_eq_false_2 by done. cbn [negb]. rewrite Hstore.
    rewrite filter_cons, decide_True by reflexivity.
    rewrite filter_cons, decide_True by reflexivity. done. }
  assert (Hflow : sample_flow ≠ ∅).
  { intros Hempty. apply (f_equal (λ d, d !! "user_code")) in Hempty.
    discriminate Hempty. }
  split; intros Hclaim.
  - pose proof (complete_device_login_granted "flow-1" None
      (granting_exchange [alice; alice_personal] (Some "alice@example.com"))
      saving (manager_awaiting "flow-1")
      (manager_on [alice; alice_personal] None) sample_flow
      (granted (Some "alice@example.com"))
      (sample_app [alice; alice_personal] true)
      eq_refl Hflow eq_refl ltac:(by eexists) eq_refl) as Hrun.
    cbn zeta in Hrun.
    change (preferred_username_of (granted (Some "alice@example.com")))
      with (Some "alice@example.com") in Hrun.
    assert (Hchosen :
      selection (_app (manager_on [alice; alice_personal] None))
                (Some "alice@example.com") = Some alice).
    { unfold selection. cbn [truthy].
      rewrite bool_decide_eq_false_2 by done. cbn [negb].
      by rewrite Hlisted. }
    rewrite Hchosen in Hrun.
    specialize (Hclaim (manager_awaiting "flow-1") "flow-1" sample_flow None
      (granting_exchange [alice; alice_personal] (Some "alice@example.com"))
      saving (granted (Some "alice@example.com"))
      (sample_app [alice; alice_personal] true) _ _ eq_refl eq_refl Hrun).
    change (preferred_username_of (granted (Some "alice@example.com")))
      with (Some "alice@example.com") in Hclaim.
    unfold claimed_selection in Hclaim. cbn [truthy] in Hclaim.
    rewrite bool_decide_eq_false_2 in Hclaim by done. cbn [negb] in Hclaim.
    rewrite Hlisted in Hclaim by reflexivity.
    vm_compute in Hclaim. discriminate Hclaim.
  - pose proof (complete_device_login_granted "flow-1" None
      (granting_exchange [alice; bob] None)
      saving (manager_awaiting "flow-1")
      (manager_on [alice; bob] None) sample_flow
      (granted None)
      (sample_app [alice; bob] true)
      eq_refl Hflow eq_refl ltac:(by eexists) eq_refl) as Hrun.
    cbn zeta in Hrun.
    change (preferred_username_of (granted None)) with (@None string) in Hrun.
    change (selection (_app (manager_on [alice; bob] None)) None)
      with (Some bob) in Hrun.
    specialize (Hclaim (manager_awaiting "flow-1") "flow-1" sample_flow None
      (granting_exchange [alice; bob] None)
      saving (granted None)
      (sample_app [alice; bob] true) _ _ eq_refl eq_refl Hrun).
    change (preferred_username_of (granted None)) with (@None string) in Hclaim.
    vm_compute in Hclaim. discriminate Hclaim.
Qed.

(** C7, amended.  When the exchange grants a token and saving the cache
    does not raise, [complete_device_login] returns a success record
    whose account is the summary of [selection], flagged active, and
    the session points at that account.  The preferred username is the
    account entry's username, else the claims' [preferred_username],
    else their [email]; [selection] is the first account the library
    lists for it, the last account of the store when there is no
    preferred username or no listed match, and nothing when the store
    is empty, in which case the pointer is left alone. *)
Theorem complete_device_login_selection
    (flow_id : string) (timeout : option Z)
    (provider : manager → gmap string pyval → option Z → provider_answer)
    (persist : app → outcome unit * app)
    (m m2 : manager) (fl : gmap string pyval) (r : response) (a' : app) :
  _pending_device_flows m !! flow_id = Some fl →
  fl ≠ ∅ →
  let m1 := set_pending_device_flows (delete flow_id (_pending_device_flows m)) m in
  provider m1 fl timeout = (Return (Some r), a') →
  is_Some (access_token r) →
  _save_cache persist (set_app a' m1) = (Return tt, m2) →
  let chosen := selection (_app m2) (preferred_username_of r) in
  let m3 := match chosen with
            | Some a => set_active_account_id (a !! "home_account_id") m2
            | None => m2
            end in
  let summary := set_is_active true <$> _serialize_account m3 chosen in
  complete_device_login flow_id timeout provider persist m =
    (Return (mkLoginResult true summary (expires_in r) (scope r) (token_type r)),
     log INFO ("Device login completed for account "
               ++ match summary with Some s => username s | None => "unknown" end)
         m3) ∧
  (∀ a, chosen = Some a → nonempty a = true →
     ∃ s, summary = Some s ∧ is_active s = true ∧
          home_account_id s = listed_id a ∧
          _active_account_id m3 = a !! "home_account_id") ∧
  (chosen = None →
     app_accounts (_app m2) = [] ∧ summary = None ∧
     _active_account_id m3 = _active_account_id m) ∧
  preferred_username_of r =
    (let from_account := account r ≫= λ info, info !! "username" in
     let claims := default ∅ (id_token_claims r) in
     if truthy from_account then from_account
     else if truthy (claims !! "preferred_username")
          then claims !! "preferred_username"
          else claims !! "email").
Proof.
  intros Hpending Hfl m1 Hprov Htoken Hsave chosen m3 summary.
  assert (Husable : unusable (Some r) = false).
  { unfold unusable, response_truthy. destruct Htoken as [t Ht].
    by rewrite Ht. }
  split; [|split; [|split; [|apply preferred_username_of_order]]].
  - unfold complete_device_login, bind. rewrite Hpending.
    rewrite bool_decide_eq_false_2 by done.
    fold m1. unfold ask. rewrite Hprov, Husable, Hsave.
    rewrite select_account_selection. reflexivity.
  - intros a Ha Hne. subst summary m3. rewrite Ha.
    unfold _serialize_account. rewrite Hne. simpl.
    eexists. split; [reflexivity|]. done.
  - intros Hnone. subst summary m3. rewrite Hnone. simpl.
    assert (Hlast : last (app_accounts (_app m2)) = None).
    { unfold chosen, selection in Hnone.
      destruct (if truthy _ then _ else _); [discriminate|]. done. }
    split; [by apply last_None in Hlast|]. split; [done|].
    pose proof (keeps_save_cache _active_account_id persist
                  ltac:(done) ltac:(done) (set_app a' m1)) as Hkeep.
    rewrite Hsave in Hkeep. simpl in Hkeep. by rewrite Hkeep.
Qed.

End ManagerProperties.

Section SampleSessions.

#[local] Existing Instance latin_lower.

(** ** The theorems at work on sample sessions *)

(** An empty store and no pointer: the token service refuses. *)
Lemma acquire_token_silent_not_authenticated_witness :
  acquire_token_silent plain_json denying_provider saving (manager_on [] None) =
    (Raise (Exn AuthenticationError
       "No active Microsoft account selected. Use the authentication tools to sign in and select an account."),
     manager_on [] None).
Proof.
  apply (acquire_token_silent_not_authenticated plain_json denying_provider
           saving (manager_on [] None)); reflexivity.
Defined.


(** An identifier that was never handed out. *)
Lemma complete_device_login_unknown_flow_witness :
  ∃ e, complete_device_login "never-issued" None denying_exchange saving
         (manager_on [alice] None) = (Raise e, manager_on [alice] None) ∧
       e = Exn AuthenticationFlowNotFound
             "The requested device flow does not exist or has already been completed." ∧
       exn_class e ≠ AuthenticationError.
Proof.
  apply (complete_device_login_unknown_flow "never-issued" None
           denying_exchange saving (manager_on [alice] None)).
  reflexivity.
Defined.

(** A pointer left over from an account that is gone is dropped; a
    pointer at alice resolves to her record. *)
Lemma get_active_account_resolves_witness :
  get_active_account (manager_on [alice] (Some "uid-carol.tenant-1")) =
    (Return None, manager_on [alice] None) ∧
  ∃ a, get_active_account (manager_on [alice; bob] (Some "uid-bob.tenant-1")) =
         (Return (Some a), manager_on [alice; bob] (Some "uid-bob.tenant-1")) ∧
       a ∈ [alice; bob] ∧ a !! "home_account_id" = Some "uid-bob.tenant-1".
Proof.
  split.
  - apply (proj1 (get_active_account_resolves
                    (manager_on [alice] (Some "uid-carol.tenant-1"))
                    "uid-carol.tenant-1" eq_refl ltac:(discriminate))).
    intros a Ha. apply list_elem_of_singleton in Ha as ->. discriminate.
  - apply (proj2 (get_active_account_resolves
                    (manager_on [alice; bob] (Some "uid-bob.tenant-1"))
                    "uid-bob.tenant-1" eq_refl ltac:(discriminate))).
    exists bob. split; [right; left | reflexivity].
Defined.

(** A stale pointer, one account, and a provider that denies: the
    pointer ends on alice although the call fails. *)
Lemma acquire_token_silent_selects_before_failing_witness :
  ∃ msg,
    acquire_token_silent plain_json denying_provider saving
        (manager_on [alice] (Some "uid-carol.tenant-1")) =
      (Raise (Exn AuthenticationError msg),
       set_app (sample_app [alice] false)
         (set_active_account_id (alice !! "home_account_id")
            (manager_on [alice] (Some "uid-carol.tenant-1")))) ∧
    _active_account_id
      (snd (acquire_token_silent plain_json denying_provider saving
              (manager_on [alice] (Some "uid-carol.tenant-1"))))
      = alice !! "home_account_id".
Proof.
  apply (acquire_token_silent_selects_before_failing plain_json denying_provider
           saving (manager_on [alice] (Some "uid-carol.tenant-1")) alice None
           (sample_app [alice] false)); reflexivity.
Defined.

(** The theorem at work: a flow is started, the accounts are listed,
    and the flow is completed against a provider that denies it; after
    another listing and an unrelated login start, a second completion
    is refused. *)
Lemma complete_device_login_single_use_witness :
  ∃ e, fst (complete_device_login "flow-1" (Some 5%Z) denying_exchange saving
              (session plain_json
                 [ListAccounts; StartDeviceLogin (Return sample_flow) "flow-2"]
                 (snd (complete_device_login "flow-1" None denying_exchange saving
                         (session plain_json [ListAccounts]
                            (snd (start_device_login (Return sample_flow) "flow-1"
                                    (manager_on [] None)))))))) = Raise e ∧
       exn_class e = AuthenticationFlowNotFound.
Proof.
  refine (proj2 (proj2 (proj2 (proj2
    (complete_device_login_single_use plain_json (Return sample_flow) "flow-1"
       (manager_on [] None)
       (snd (start_device_login (Return sample_flow) "flow-1" (manager_on [] None)))
       (match fst (start_device_login (Return sample_flow) "flow-1"
                     (manager_on [] None)) with
        | Return i => i
        | Raise _ => ∅
        end)
       None (Some 5%Z) denying_exchange denying_exchange
       saving saving [ListAccounts]
       [ListAccounts; StartDeviceLogin (Return sample_flow) "flow-2"] _ _))))).
  - reflexivity.
  - repeat constructor; simpl; [tauto | discriminate].
Defined.

(** The invariant after a session in which bob is selected by name and
    the accounts are listed. *)
Lemma at_most_one_active_witness :
  let m := session plain_json
             [SetActiveAccount None (Some "bob@example.com"); ListAccounts]
             (manager_on [alice; bob] None) in
  (∃ summaries, fst (list_accounts m) = Return summaries ∧
                active_count summaries ≤ 1) ∧
  active_count (omap (λ a, _serialize_account m (Some a))
                     (app_accounts (_app m))) ≤ 1.
Proof.
  apply (at_most_one_active plain_json
           [SetActiveAccount None (Some "bob@example.com"); ListAccounts]
           (manager_on [alice; bob] None)).
  change (NoDup ["uid-alice.tenant-1"; "uid-bob.tenant-1"]).
  apply NoDup_cons. split; [|apply NoDup_singleton].
  intros H. apply list_elem_of_singleton in H. discriminate.
Defined.

(** C7 as stated fails, whichever end of a listing counts as the most
    recent.  If the last is the most recent: with alice's work and
    personal accounts in the store and a grant for her address, the
    code settles on the first of the two matches.  If the first is the
    most recent: with alice and bob in the store and a grant that names
    nobody, the code settles on the last account. *)
Lemma claimed_login_selection_fails :
  ¬ claimed_login_selection last ∧ ¬ claimed_login_selection head.
Proof. exact claimed_selection_refuted. Qed.

(** The theorem at work: alice signs in while the store already holds
    her work account and, listed after it, her personal account under
    the same address; the login settles on the work account. *)
Lemma complete_device_login_selection_witness :
  fst (complete_device_login "flow-1" None
         (granting_exchange [alice; alice_personal] (Some "alice@example.com"))
         saving (manager_awaiting "flow-1"))
  = Return (mkLoginResult true
      (Some (mkAccountSummary "alice@example.com" None "uid-alice.tenant-1"
               (Some "login.microsoftonline.com") None true))
      (Some 3600%Z) (Some "Files.ReadWrite.All User.Read") (Some "Bearer")).
Proof.
  assert (Hfl : sample_flow ≠ ∅).
  { intros H. apply (f_equal (λ d, d !! "user_code")) in H. discriminate H. }
  pose proof (complete_device_login_selection "flow-1" None
    (granting_exchange [alice; alice_personal] (Some "alice@example.com"))
    saving (manager_awaiting "flow-1")
    (snd (_save_cache saving
            (set_app (sample_app [alice; alice_personal] true)
               (set_pending_device_flows
                  (delete "flow-1" (_pending_device_flows (manager_awaiting "flow-1")))
                  (manager_awaiting "flow-1")))))
    sample_flow (granted (Some "alice@example.com"))
    (sample_app [alice; alice_personal] true)
    eq_refl Hfl eq_refl (ex_intro _ "access-token-text" eq_refl) eq_refl)
    as [Hcall _].
  rewrite Hcall. reflexivity.
Defined.

End SampleSessions.

(** * Further properties of the manager *)

Section FurtherProperties.

Context {str_lower : StrLower}.

(** ** Listings *)

Lemma nonempty_true (a : gmap string string) : nonempty a = true ↔ a ≠ ∅.
Proof.
  unfold nonempty. case_bool_decide; simpl; split; done.
Qed.

Lemma _serialize_account_empty (m : manager) :
  _serialize_account m (Some ∅) = None.
Proof. reflexivity. Qed.

Lemma _serialize_account_Some (m : manager) (a : gmap string string) :
  a ≠ ∅ →
  ∃ s, _serialize_account m (Some a) = Some s ∧
       home_account_id s = listed_id a ∧
       username s = default "" (a !! "username").
Proof.
  intros Hne. apply nonempty_true in Hne.
  unfold _serialize_account. rewrite Hne. eauto.
Qed.

(** X1.  A listing never raises.  It has one summary for each non-empty
    account record of the store, in the order of the store, carrying
    the record's identifier and username; and it leaves the manager as
    it was, except that with an unset pointer and exactly one account
    it moves the pointer to that account's identifier. *)
Theorem list_accounts_lists_store (m : manager) :
  ∃ summaries,
    fst (list_accounts m) = Return summaries ∧
    map home_account_id summaries =
      map listed_id (filter (λ a, a ≠ ∅) (app_accounts (_app m))) ∧
    map username summaries =
      map (λ a, default "" (a !! "username"))
          (filter (λ a, a ≠ ∅) (app_accounts (_app m))) ∧
    (snd (list_accounts m) = m ∨
     truthy (_active_account_id m) = false ∧
     ∃ a, app_accounts (_app m) = [a] ∧
          snd (list_accounts m) =
            set_active_account_id (a !! "home_account_id") m).
Proof.
  assert (Hshape : ∀ (f : AccountSummary → AccountSummary) accounts,
    (∀ s, home_account_id (f s) = home_account_id s) →
    (∀ s, username (f s) = username s) →
    let l := omap (λ a, f <$> _serialize_account m (Some a)) accounts in
    map home_account_id l = map listed_id (filter (λ a, a ≠ ∅) accounts) ∧
    map username l =
      map (λ a, default "" (a !! "username")) (filter (λ a, a ≠ ∅) accounts)).
  { intros f accounts Hid Hname. induction accounts as [|a rest [IH1 IH2]];
      [done|]. cbn [omap list_omap]. rewrite filter_cons.
    destruct (decide (a = ∅)) as [->|Hne].
    - rewrite decide_False by (intros H; by apply H).
      rewrite _serialize_account_empty. done.
    - rewrite decide_True by done.
      destruct (_serialize_account_Some m a Hne) as (s & -> & Hs1 & Hs2).
      cbn. rewrite Hid, Hname, Hs1, Hs2. split; f_equal; done. }
  unfold list_accounts. cbn [get_accounts].
  destruct (negb (truthy (_active_account_id m)) && _) eqn:Hauto; cbn [fst snd].
  - apply andb_true_iff in Hauto as [Hunset Hlen].
    apply negb_true_iff in Hunset. apply bool_decide_eq_true in Hlen.
    destruct (app_accounts (_app m)) as [|a [|b rest]] eqn:Hacc; try discriminate.
    destruct (Hshape (set_is_active true) [a]) as [H1 H2]; [done..|].
    clear Hshape. cbn [map]. eexists. split; [reflexivity|].
    cbn [omap list_omap] in H1, H2.
    destruct (_serialize_account m (Some a)); simpl in H1, H2; simpl.
    + split; [done|]. split; [done|]. right. eauto.
    + split; [done|]. split; [done|]. right. eauto.
  - eexists. split; [reflexivity|]. rewrite omap_id_map_fmap.
    destruct (Hshape
      (λ s, set_is_active
              (bool_decide (Some (home_account_id s) = _active_account_id m)) s)
      (app_accounts (_app m))) as [H1 H2]; [done..|].
    split; [done|]. split; [done|]. by left.
Qed.

(** X2.  Listing twice is listing once: the second of two consecutive
    listings returns the same summaries as the first and changes
    nothing. *)
Theorem list_accounts_idempotent (m : manager) :
  list_accounts (snd (list_accounts m)) = list_accounts m.
Proof.
  unfold list_accounts at 2 3. cbn [get_accounts].
  destruct (negb (truthy (_active_account_id m)) && _) eqn:Hauto; cbn [fst snd].
  - apply andb_true_iff in Hauto as [Hunset Hlen].
    apply negb_true_iff in Hunset. apply bool_decide_eq_true in Hlen.
    destruct (app_accounts (_app m)) as [|a [|b rest]] eqn:Hacc; try discriminate.
    unfold list_accounts. cbn [get_accounts _app set_active_account_id
      _active_account_id]. rewrite Hacc.
    cbn [map length lookup list_lookup mbind option_bind].
    unfold _serialize_account. cbn [_active_account_id].
    destruct (nonempty a) eqn:Hne.
    + destruct (truthy (a !! "home_account_id")) eqn:Hid.
      * cbn. apply truthy_Some in Hid as (x & Hx & _). rewrite Hx. cbn.
        rewrite (bool_decide_eq_true_2 (Some x = Some x)) by done. reflexivity.
      * cbn. done.
    + destruct (truthy (a !! "home_account_id")); cbn; done.
  - unfold list_accounts. cbn [get_accounts]. by rewrite Hauto.
Qed.

(** X3.  While the pointer is set, a listing changes nothing, and it
    flags exactly the summaries whose identifier is the pointer. *)
Theorem list_accounts_flags_pointer (m : manager) :
  truthy (_active_account_id m) = true →
  ∃ summaries,
    list_accounts m = (Return summaries, m) ∧
    ∀ s, s ∈ summaries →
         (is_active s = true ↔ Some (home_account_id s) = _active_account_id m).
Proof.
  intros Hset. unfold list_accounts. rewrite Hset. cbn [negb andb].
  eexists. split; [reflexivity|].
  intros s Hs. rewrite omap_id_map_fmap in Hs.
  apply list_elem_of_omap in Hs as (a & _ & Hs).
  apply fmap_Some in Hs as (s0 & _ & ->). cbn.
  by rewrite bool_decide_eq_true.
Qed.

(** X4.  With no pointer and a store that does not hold exactly one
    account (none, or several), a listing flags nobody and changes
    nothing. *)
Theorem list_accounts_no_selection (m : manager) :
  _active_account_id m = None →
  length (app_accounts (_app m)) ≠ 1 →
  ∃ summaries,
    list_accounts m = (Return summaries, m) ∧ active_count summaries = 0.
Proof.
  intros Hnone Hlen. unfold list_accounts. cbn [get_accounts].
  rewrite bool_decide_eq_false_2 by done. rewrite andb_false_r.
  eexists. split; [reflexivity|].
  apply active_count_zero. intros s Hs. rewrite omap_id_map_fmap in Hs.
  apply list_elem_of_omap in Hs as (a & _ & Hs).
  apply fmap_Some in Hs as (s0 & _ & ->). cbn. by rewrite Hnone.
Qed.

(** ** Selection and resolution compose *)

(** In a list whose listed identifiers are distinct, two accounts with
    the same listed identifier are one account. *)
Lemma listed_id_inj (accounts : list (gmap string string)) a b :
  NoDup (map listed_id accounts) →
  a ∈ accounts → b ∈ accounts → listed_id a = listed_id b → a = b.
Proof.
  induction accounts as [|c rest IH]; intros Hnd Ha Hb Heq.
  - by apply elem_of_nil in Ha.
  - cbn in Hnd. apply NoDup_cons in Hnd as [Hc Hnd].
    apply elem_of_cons in Ha as [->|Ha]; apply elem_of_cons in Hb as [->|Hb].
    + done.
    + exfalso. apply Hc. rewrite Heq. apply list_elem_of_fmap. eauto.
    + exfalso. apply Hc. rewrite <- Heq. apply list_elem_of_fmap. eauto.
    + by apply IH.
Qed.

(** X5.  After [set_active_account] returns the summary of an account
    with a non-empty identifier, [get_active_account] resolves to a
    stored account with that identifier and changes nothing; when the
    listed identifiers of the store are distinct, it is the account
    whose summary was returned. *)
Theorem set_active_account_then_get (home_id uname : option string)
    (m m' : manager) (s : AccountSummary) :
  set_active_account home_id uname m = (Return (Some s), m') →
  home_account_id s ≠ "" →
  ∃ b, get_active_account m' = (Return (Some b), m') ∧
       b ∈ app_accounts (_app m') ∧
       b !! "home_account_id" = Some (home_account_id s) ∧
       (NoDup (map listed_id (app_accounts (_app m'))) →
        _serialize_account m' (Some b) = Some s).
Proof.
  intros Hset Hid.
  assert (Hcall :
    set_active_account home_id uname m =
    if negb (truthy home_id) && negb (truthy uname) then
      (Raise (Exn AuthenticationError
                "Either home_account_id or username must be provided"), m)
    else set_active_account_loop home_id uname (app_accounts (_app m)) m).
  { unfold set_active_account. by destruct (_ && _). }
  rewrite Hcall, set_active_account_loop_find in Hset. clear Hcall.
  destruct (_ && _); [discriminate|].
  destruct (find _ _) as [a|] eqn:Hfind; [|discriminate].
  apply find_selects_Some in Hfind as [Ha Hsel].
  cbn zeta in Hset. injection Hset as Hs <-.
  pose proof (selects_nonempty _ _ _ Hsel) as Hne.
  unfold _serialize_account in Hs. rewrite Hne in Hs. injection Hs as <-.
  cbn [home_account_id] in Hid.
  destruct (a !! "home_account_id") as [x|] eqn:Hx; [|done]. cbn in Hid.
  set (m' := set_active_account_id (Some x) m).
  unfold get_active_account.
  change (_active_account_id m') with (Some x).
  rewrite (truthy_of_nonempty _ Hid). cbn [negb].
  change (get_accounts None (_app m')) with (app_accounts (_app m)).
  destruct (find _ _) as [b|] eqn:Hfind.
  - apply find_home_account_id_Some in Hfind as [Hb Hbid].
    exists b. split; [done|]. split; [done|]. split; [done|].
    intros Hnd. assert (a = b) as <-.
    { apply (listed_id_inj (app_accounts (_app m))); try done.
      unfold listed_id. by rewrite Hx, Hbid. }
    unfold _serialize_account. rewrite Hne, Hx. cbn.
    by rewrite bool_decide_eq_true_2.
  - exfalso. eapply find_home_account_id_None in Hfind; eauto.
Qed.

(** ** Silent acquisition: the paths not covered above *)

(** X6.  When an active account resolves and the provider answers with
    an access token, [acquire_token_silent] returns that token; the
    provider was asked for the resolved account in the state the call
    started in, and the pointer is where it was. *)
Theorem acquire_token_silent_returns_token
    (json_dumps : response → string)
    (provider : manager → gmap string string → provider_answer)
    (persist : app → outcome unit * app) (m m2 : manager)
    (a : gmap string string) (r : response) (a' : app) (token : string) :
  fst (get_active_account m) = Return (Some a) →
  provider m a = (Return (Some r), a') →
  access_token r = Some token →
  _save_cache persist (set_app a' m) = (Return tt, m2) →
  acquire_token_silent json_dumps provider persist m = (Return token, m2) ∧
  _active_account_id m2 = _active_account_id m.
Proof.
  intros Hget Hprov Htoken Hsave.
  assert (Hm : get_active_account m = (Return (Some a), m)).
  { unfold get_active_account in *.
    destruct (negb _); [discriminate|].
    destruct (find _ _); [|discriminate]. simpl in Hget. by injection Hget as ->. }
  pose proof (get_active_account_nonempty m a Hget) as Hne.
  split.
  - unfold acquire_token_silent, bind. rewrite Hm. cbn [dict_truthy].
    rewrite Hne. cbn [negb ret from_option id]. unfold ask. rewrite Hprov.
    assert (Husable : unusable (Some r) = false).
    { unfold unusable, response_truthy. by rewrite Htoken. }
    rewrite Husable, Hsave. cbn. by rewrite Htoken.
  - pose proof (keeps_save_cache _active_account_id persist
                  ltac:(done) ltac:(done) (set_app a' m)) as Hkeep.
    rewrite Hsave in Hkeep. done.
Qed.

(** X7.  When no active account resolves and the store does not hold
    exactly one account, [acquire_token_silent] raises the
    [AuthenticationError] that asks for a selection.  The provider is
    not consulted, and the only change is the one resolution makes (a
    stale pointer is dropped). *)
Theorem acquire_token_silent_needs_selection
    (json_dumps : response → string)
    (provider : manager → gmap string string → provider_answer)
    (persist : app → outcome unit * app) (m : manager) :
  fst (get_active_account m) = Return None →
  length (app_accounts (_app m)) ≠ 1 →
  acquire_token_silent json_dumps provider persist m =
    (Raise (Exn AuthenticationError
       "No active Microsoft account selected. Use the authentication tools to sign in and select an account."),
     snd (get_active_account m)) ∧
  truthy (_active_account_id (snd (get_active_account m))) = false.
Proof.
  intros Hnone Hlen.
  destruct (get_active_account_frame m) as [v Hv].
  split.
  - unfold acquire_token_silent, bind.
    destruct (get_active_account m) as [o m'] eqn:Hget. simpl in *. subst.
    unfold gets, bind. simpl.
    destruct (app_accounts (_app m)) as [|a [|b rest]]; simpl in *; done.
  - unfold get_active_account in *.
    destruct (truthy (_active_account_id m)) eqn:Ht; simpl in *; [|done].
    by destruct (find _ _).
Qed.

(** X8.  When an active account resolves and the provider's answer
    carries no access token, [acquire_token_silent] raises
    [AuthenticationError] without saving the cache.  The message ends
    with the provider's [error_description] when there is one, with the
    JSON text of the answer when the answer is a non-empty mapping
    without description, and with nothing when the answer is [None] or
    an empty mapping. *)
Theorem acquire_token_silent_failure_message
    (json_dumps : response → string)
    (provider : manager → gmap string string → provider_answer)
    (persist : app → outcome unit * app) (m : manager)
    (a : gmap string string) (result : option response) (a' : app) :
  fst (get_active_account m) = Return (Some a) →
  provider m a = (Return result, a') →
  (result ≫= access_token) = None →
  let base :=
    "Unable to acquire a token silently. Complete the device login flow first." in
  ∃ msg,
    acquire_token_silent json_dumps provider persist m =
      (Raise (Exn AuthenticationError msg), set_app a' m) ∧
    (∀ r d, result = Some r → error_description r = Some d → d ≠ "" →
            msg = base ++ " Details: " ++ d) ∧
    (∀ r, result = Some r → response_truthy r = true →
          truthy (error_description r) = false → json_dumps r ≠ "" →
          msg = base ++ " Details: " ++ json_dumps r) ∧
    ((result = None ∨ ∃ r, result = Some r ∧ response_truthy r = false) →
     msg = base).
Proof.
  intros Hget Hprov Htoken base.
  assert (Hm : get_active_account m = (Return (Some a), m)).
  { unfold get_active_account in *.
    destruct (negb _); [discriminate|].
    destruct (find _ _); [|discriminate]. simpl in Hget. by injection Hget as ->. }
  pose proof (get_active_account_nonempty m a Hget) as Hne.
  assert (Hbad : unusable result = true).
  { destruct result as [r|]; [|done]. simpl in Htoken. unfold unusable.
    rewrite Htoken. simpl. apply orb_true_r. }
  eexists. split.
  { unfold acquire_token_silent, bind. rewrite Hm. cbn [dict_truthy].
    rewrite Hne. cbn [negb ret from_option id]. unfold ask. rewrite Hprov, Hbad.
    reflexivity. }
  split; [|split].
  - intros r d -> Hd Hdne.
    assert (Ht : response_truthy r = true).
    { unfold response_truthy. rewrite Hd.
      rewrite bool_decide_eq_false_2; [done|]. intros (_ & ? & _). done. }
    rewrite Ht, Hd. unfold py_or. rewrite (truthy_of_nonempty _ Hdne).
    by rewrite (truthy_of_nonempty _ Hdne).
  - intros r -> Ht Hd Hjson. rewrite Ht. unfold py_or. rewrite Hd.
    by rewrite (truthy_of_nonempty _ Hjson).
  - intros [-> | (r & -> & Ht)]; [done|]. by rewrite Ht.
Qed.

(** ** Device login: the paths not covered above *)

(** X9.  When the exchange for a pending flow answers without an access
    token, [complete_device_login] raises [AuthenticationError]; the
    message carries the provider's [error_description] when there is
    one.  The flow is consumed, the cache is not saved, and the active
    pointer is where it was. *)
Theorem complete_device_login_denied
    (flow_id : string) (timeout : option Z)
    (provider : manager → gmap string pyval → option Z → provider_answer)
    (persist : app → outcome unit * app)
    (m : manager) (fl : gmap string pyval) (result : option response) (a' : app) :
  _pending_device_flows m !! flow_id = Some fl →
  fl ≠ ∅ →
  let m1 := set_pending_device_flows (delete flow_id (_pending_device_flows m)) m in
  provider m1 fl timeout = (Return result, a') →
  (result ≫= access_token) = None →
  ∃ msg,
    complete_device_login flow_id timeout provider persist m =
      (Raise (Exn AuthenticationError msg), set_app a' m1) ∧
    (∀ d, result ≫= error_description = Some d → d ≠ "" →
          msg = "Device login did not succeed. Details: " ++ d) ∧
    (truthy (result ≫= error_description) = false →
     msg = "Device login did not succeed.") ∧
    _pending_device_flows (set_app a' m1) !! flow_id = None ∧
    _active_account_id (set_app a' m1) = _active_account_id m.
Proof.
  intros Hpending Hfl m1 Hprov Htoken.
  assert (Hbad : unusable result = true).
  { destruct result as [r|]; [|done]. simpl in Htoken. unfold unusable.
    rewrite Htoken. simpl. apply orb_true_r. }
  eexists. split.
  { unfold complete_device_login, bind. rewrite Hpending.
    rewrite bool_decide_eq_false_2 by done. fold m1.
    unfold ask. rewrite Hprov, Hbad. reflexivity. }
  split; [|split; [|split]].
  - intros d Hd Hdne. rewrite Hd. by rewrite (truthy_of_nonempty _ Hdne).
  - by intros ->.
  - simpl. apply lookup_delete_eq.
  - done.
Qed.

(** When the exchange itself raises, [complete_device_login]
    lets the exception through unchanged; the flow is consumed all the
    same and the active pointer is where it was. *)
Theorem complete_device_login_provider_raises
    (flow_id : string) (timeout : option Z)
    (provider : manager → gmap string pyval → option Z → provider_answer)
    (persist : app → outcome unit * app)
    (m : manager) (fl : gmap string pyval) (e : exn) (a' : app) :
  _pending_device_flows m !! flow_id = Some fl →
  fl ≠ ∅ →
  let m1 := set_pending_device_flows (delete flow_id (_pending_device_flows m)) m in
  provider m1 fl timeout = (Raise e, a') →
  complete_device_login flow_id timeout provider persist m =
    (Raise e, set_app a' m1) ∧
  _pending_device_flows (set_app a' m1) !! flow_id = None ∧
  _active_account_id (set_app a' m1) = _active_account_id m.
Proof.
  intros Hpending Hfl m1 Hprov.
  split; [|split; [simpl; apply lookup_delete_eq | done]].
  unfold complete_device_login, bind. rewrite Hpending.
  rewrite bool_decide_eq_false_2 by done. fold m1.
  unfold ask. by rewrite Hprov.
Qed.

(** X10.  [start_device_login] on a provider answer with a
    [user_code]: the flow is stored under the generated identifier,
    every other pending flow is kept, one line is logged, and the
    caller receives exactly six entries, among them the identifier and
    the user code, and no other entry of the flow (its [device_code],
    for one).  On an answer without [user_code] it raises
    [AuthenticationError] and changes nothing. *)
Theorem start_device_login_outcome
    (flow : gmap string pyval) (uuid4 : string) (m : manager) :
  (∀ code, flow !! "user_code" = Some code →
     ∃ instructions m',
       start_device_login (Return flow) uuid4 m = (Return instructions, m') ∧
       _pending_device_flows m' = <[uuid4 := flow]> (_pending_device_flows m) ∧
       _active_account_id m' = _active_account_id m ∧
       _app m' = _app m ∧
       length (_logger m') = S (length (_logger m)) ∧
       dom instructions =
         ({["flow_id"; "user_code"; "verification_uri";
            "expires_in"; "interval"; "message"]} : gset string) ∧
       instructions !! "flow_id" = Some (PStr uuid4) ∧
       instructions !! "user_code" = Some code ∧
       instructions !! "device_code" = None) ∧
  (flow !! "user_code" = None →
     start_device_login (Return flow) uuid4 m =
       (Raise (Exn AuthenticationError "Failed to start the device login flow"), m)).
Proof.
  split.
  - intros code Hcode. unfold start_device_login, bind, modify, ret.
    rewrite Hcode. rewrite bool_decide_eq_true_2 by eauto. cbn [negb].
    do 2 eexists. split; [reflexivity|].
    split; [done|]. split; [done|]. split; [done|].
    split; [cbn; rewrite length_app; cbn; lia|].
    split; [rewrite !dom_insert_L, dom_empty_L; set_solver|].
    split; [done|]. split; [|done].
    rewrite lookup_insert_ne by done. rewrite lookup_insert_eq.
    unfold pyget. by rewrite Hcode.
  - intros Hnone. unfold start_device_login, bind. rewrite Hnone.
    rewrite bool_decide_eq_false_2; [done|]. by intros [? ?].
Qed.

(** ** Persistence *)

(** X11.  [_save_cache] writes only when the cache reports a change
    (otherwise nothing is asked of the file system and nothing
    changes).  A write that fails with an [OSError] is swallowed: the
    call returns and one warning is logged. *)
Theorem save_cache_best_effort (persist : app → outcome unit * app) (m : manager) :
  (has_state_changed (_app m) = false →
     _save_cache persist m = (Return tt, m)) ∧
  (∀ e a', has_state_changed (_app m) = true →
     persist (_app m) = (Raise e, a') →
     issubclass (exn_class e) OSError = true →
     ∃ m', _save_cache persist m = (Return tt, m') ∧
           _logger m' =
             (_logger m ++ [(WARNING, "Unable to persist token cache: "
                                       ++ exn_message e)%string])%list ∧
           _active_account_id m' = _active_account_id m ∧
           _pending_device_flows m' = _pending_device_flows m).
Proof.
  split.
  - intros Hflag. unfold _save_cache. by rewrite Hflag.
  - intros e a' Hflag Hpersist He. unfold _save_cache.
    rewrite Hflag, Hpersist, He. eauto.
Qed.

(** Totality of the listing, and what a listing flags while the pointer
    is set, in the form the later proofs use. *)
Lemma list_accounts_lists_store_aux (m : manager) :
  ∃ summaries, fst (list_accounts m) = Return summaries.
Proof. unfold list_accounts. destruct (_ && _); eauto. Qed.

Lemma list_accounts_flags_pointer_aux (m : manager) :
  truthy (_active_account_id m) = true →
  ∃ summaries,
    list_accounts m = (Return summaries, m) ∧
    ∀ a s, a ∈ app_accounts (_app m) →
           _serialize_account m (Some a) = Some s →
           set_is_active
             (bool_decide (Some (home_account_id s) = _active_account_id m)) s
           ∈ summaries.
Proof.
  intros Hset. unfold list_accounts. rewrite Hset. cbn [negb andb].
  eexists. split; [reflexivity|].
  intros a s Ha Hs. rewrite omap_id_map_fmap.
  apply list_elem_of_omap. exists a. split; [done|]. by rewrite Hs.
Qed.

(** ** The diagnostic snapshot *)

(** X12.  [get_context] never raises.  When it reports an active
    account, that summary is among the available accounts it lists, it
    is flagged active, its identifier is the pointer, and the call has
    changed nothing. *)
Theorem get_context_active_is_listed (m : manager) :
  ∃ c m', get_context m = (Return c, m') ∧
    ∀ s, ctx_active_account c = Some s →
         s ∈ ctx_available_accounts c ∧ is_active s = true ∧
         Some (home_account_id s) = _active_account_id m ∧ m' = m.
Proof.
  unfold get_context, get_active_account_summary, bind, gets, ret.
  unfold get_active_account.
  destruct (truthy (_active_account_id m)) eqn:Hset; cbn [negb].
  - destruct (find _ _) as [a|] eqn:Hfind.
    + apply find_home_account_id_Some in Hfind as [Ha Hid].
      destruct (list_accounts_flags_pointer_aux m Hset) as (l & Hl & Hin).
      rewrite Hl. do 2 eexists. split; [reflexivity|]. cbn.
      intros s Hs.
      assert (Hne : a ≠ ∅).
      { apply truthy_Some in Hset as (x & Hx & _). rewrite Hx in Hid.
        intros ->. by rewrite lookup_empty in Hid. }
      apply nonempty_true in Hne. unfold _serialize_account in Hs.
      rewrite Hne in Hs. injection Hs as <-. cbn.
      rewrite bool_decide_eq_true_2 by done.
      assert (Hptr : Some (default "" (a !! "home_account_id"))
                     = _active_account_id m).
      { apply truthy_Some in Hset as (x & Hx & _). rewrite Hx in *.
        by rewrite Hid. }
      split; [|split; [done|split; [done|done]]].
      assert (Hser : _serialize_account m (Some a) = Some
        (mkAccountSummary (default "" (a !! "username")) (a !! "name")
           (default "" (a !! "home_account_id")) (a !! "environment")
           (a !! "tenant_profiles") true)).
      { unfold _serialize_account. rewrite Hne.
        by rewrite bool_decide_eq_true_2. }
      pose proof (Hin a _ Ha Hser) as Hmem. cbn in Hmem.
      by rewrite bool_decide_eq_true_2 in Hmem.
    + cbn. destruct (list_accounts _) as [[l|e] m'] eqn:Hl.
      * do 2 eexists. split; [reflexivity|]. cbn. discriminate.
      * pose proof (list_accounts_lists_store_aux (set_active_account_id None m))
          as (l & Hl'). rewrite Hl in Hl'. discriminate.
  - cbn. destruct (list_accounts m) as [[l|e] m'] eqn:Hl.
    + do 2 eexists. split; [reflexivity|]. cbn. discriminate.
    + pose proof (list_accounts_lists_store_aux m) as (l & Hl').
      rewrite Hl in Hl'. discriminate.
Qed.

(** X13.  When no active account resolves (the pointer is unset, or
    stale) and the store holds one account with a non-empty identifier,
    [get_context] reports no active account and, in the same snapshot,
    lists that account flagged active; afterwards the pointer is that
    account's identifier. *)
Theorem get_context_promotes_after_reporting (m : manager)
    (a : gmap string string) (ident : string) :
  fst (get_active_account m) = Return None →
  app_accounts (_app m) = [a] →
  a !! "home_account_id" = Some ident →
  ident ≠ "" →
  ∃ c s, get_context m = (Return c, set_active_account_id (Some ident) m) ∧
         ctx_active_account c = None ∧
         ctx_available_accounts c = [s] ∧
         is_active s = true ∧ home_account_id s = ident.
Proof.
  intros Hnone Hacc Hid Hne.
  destruct (get_active_account_frame m) as [v Hv].
  assert (Hunset : truthy (_active_account_id (snd (get_active_account m))) = false).
  { unfold get_active_account in *.
    destruct (truthy (_active_account_id m)) eqn:Ht; simpl in *; [|done].
    by destruct (find _ _). }
  unfold get_context, get_active_account_summary, bind, gets, ret.
  destruct (get_active_account m) as [o m1] eqn:Hget. simpl in *. subst o m1.
  cbn [_serialize_account].
  destruct (list_accounts_auto_selects (set_active_account_id v m) a ident
              Hunset Hacc Hid Hne) as (s & Hl & Hact & Hsid & _).
  rewrite Hl. cbn. do 2 eexists. split; [reflexivity|]. done.
Qed.

(** X14.  With the pointer unset (or empty) and one account with a
    non-empty identifier in the store, a listing points the session at
    that account and reports it active; a second listing reports the
    same and changes nothing more. *)
Theorem list_accounts_promotes_sole_account (m : manager)
    (a : gmap string string) (ident : string) :
  truthy (_active_account_id m) = false →
  app_accounts (_app m) = [a] →
  a !! "home_account_id" = Some ident →
  ident ≠ "" →
  ∃ s, list_accounts m = (Return [s], set_active_account_id (Some ident) m) ∧
       is_active s = true ∧ home_account_id s = ident ∧
       list_accounts (set_active_account_id (Some ident) m) =
         (Return [s], set_active_account_id (Some ident) m).
Proof. apply list_accounts_auto_selects. Qed.

(** ** Construction: what a new manager is *)

Lemma init_shape
    (deserialize : string → outcome (list (gmap string string)))
    (Path : string → string)
    (PublicClientApplication :
       string → string → list (gmap string string) → outcome app)
    (client_id tenant_id : string) (scopes : list string) (cache_path : string)
    (file : cache_file) (m : manager) :
  __init__ deserialize Path PublicClientApplication
    client_id tenant_id scopes cache_path file = Return m →
  ∃ accounts logger a,
    PublicClientApplication client_id
      ("https://login.microsoftonline.com/"
       ++ (if bool_decide (tenant_id = "") then "common" else tenant_id))
      accounts = Return a ∧
    m = mkManager scopes (Path cache_path) ∅ None a logger ∧
    length logger ≤ 1 ∧ client_id ≠ "" ∧ (∀ e, file ≠ Inaccessible e) ∧
    (∀ cache_data accs,
       file = Present (Return cache_data) → cache_data ≠ "" →
       deserialize cache_data = Return accs → accounts = accs ∧ logger = []).
Proof.
  unfold __init__. case_bool_decide as Hclient; [discriminate|].
  set (authority := "https://login.microsoftonline.com/" ++ _).
  assert (Hbuild : ∀ accounts logger,
    match PublicClientApplication client_id authority accounts with
    | Return a => Return (mkManager scopes (Path cache_path) ∅ None a logger)
    | Raise e => Raise e
    end = Return m →
    ∃ a, PublicClientApplication client_id authority accounts = Return a ∧
         m = mkManager scopes (Path cache_path) ∅ None a logger).
  { intros accounts logger.
    destruct (PublicClientApplication client_id authority accounts) as [a|e];
      [|discriminate].
    intros [= <-]. eauto. }
  destruct file as [e | | [cache_data|e]].
  - discriminate.
  - intros Hm. apply Hbuild in Hm as (a & Ha & ->).
    exists [], [], a. split; [done|]. split; [done|]. split; [simpl; lia|].
    split; [done|]. split; [done|]. intros ? ? [=].
  - destruct (decide (cache_data = "")) as [->|Hdata].
    + rewrite bool_decide_eq_true_2 by done.
      intros Hm. apply Hbuild in Hm as (a & Ha & ->).
      exists [], [], a. split; [done|]. split; [done|]. split; [simpl; lia|].
      split; [done|]. split; [done|]. by intros ? ? [= <-] ?.
    + rewrite (bool_decide_eq_false_2 (cache_data = "")) by done.
      destruct (deserialize cache_data) as [accounts|e] eqn:Hde.
      * intros Hm. apply Hbuild in Hm as (a & Ha & ->).
        exists accounts, [], a. split; [done|]. split; [done|].
        split; [simpl; lia|]. split; [done|]. split; [done|].
        intros ? ? [= <-] _ Hde'. rewrite Hde in Hde'. by injection Hde' as <-.
      * destruct (issubclass _ _); [|discriminate].
        intros Hm. apply Hbuild in Hm as (a & Ha & ->).
        eexists [], _, a. split; [done|]. split; [reflexivity|].
        split; [simpl; lia|]. split; [done|]. split; [done|].
        intros ? ? [= <-] _ Hde'. rewrite Hde in Hde'. discriminate.
  - destruct (issubclass _ _); [|discriminate].
    intros Hm. apply Hbuild in Hm as (a & Ha & ->).
    eexists [], _, a. split; [done|]. split; [reflexivity|].
    split; [simpl; lia|]. split; [done|]. split; [done|]. intros ? ? [=].
Qed.

(** X15.  Whenever the constructor returns, the client identifier was
    not empty and looking for the cache file did not raise.  The new
    manager has no active account and no pending flow, whatever the
    cache file holds: neither survives a restart.  It keeps the scopes
    it was given and the path object made of the cache path, and has
    logged at most one line.  Its application object is what the
    library's constructor returned for the client identifier, the
    authority of the tenant ([common] when none is given) and the
    accounts of the token cache, which are those of the file when the
    file deserializes. *)
Theorem init_fresh_session
    (deserialize : string → outcome (list (gmap string string)))
    (Path : string → string)
    (PublicClientApplication :
       string → string → list (gmap string string) → outcome app)
    (client_id tenant_id : string) (scopes : list string) (cache_path : string)
    (file : cache_file) (m : manager) :
  __init__ deserialize Path PublicClientApplication
    client_id tenant_id scopes cache_path file = Return m →
  client_id ≠ "" ∧
  (∀ e, file ≠ Inaccessible e) ∧
  _active_account_id m = None ∧
  _pending_device_flows m = ∅ ∧
  _scopes m = scopes ∧ _cache_path m = Path cache_path ∧
  length (_logger m) ≤ 1 ∧
  ∃ accounts,
    PublicClientApplication client_id
      ("https://login.microsoftonline.com/"
       ++ (if bool_decide (tenant_id = "") then "common" else tenant_id))
      accounts = Return (_app m) ∧
    ∀ cache_data accs,
      file = Present (Return cache_data) → cache_data ≠ "" →
      deserialize cache_data = Return accs →
      accounts = accs ∧ _logger m = [].
Proof.
  intros Hinit.
  destruct (init_shape _ _ _ _ _ _ _ _ _ Hinit)
    as (accounts & logger & a & Ha & -> & Hlen & Hclient & Hfile & Hload).
  do 6 (split; [done|]). split; [done|].
  exists accounts. split; [done|]. exact Hload.
Qed.

(** ** What no session changes *)

Lemma keeps_start_device_login {B} (f : manager → B) initiate uuid4 :
  (∀ p m, f (set_pending_device_flows p m) = f m) →
  (∀ l s m, f (log l s m) = f m) →
  keeps f (start_device_login initiate uuid4).
Proof.
  intros H1 H2. unfold start_device_login. apply keeps_bind; [done|].
  keeps_step.
Qed.

Lemma keeps_complete_device_login {B} (f : manager → B)
    flow_id timeout provider persist :
  (∀ p m, f (set_pending_device_flows p m) = f m) →
  (∀ v m, f (set_active_account_id v m) = f m) →
  (∀ a m, f (set_app a m) = f m) →
  (∀ l s m, f (log l s m) = f m) →
  keeps f (complete_device_login flow_id timeout provider persist).
Proof.
  intros H1 H2 H3 H4. unfold complete_device_login.
  apply keeps_bind; [intros m; apply H1|]. keeps_step.
Qed.

Lemma keeps_step_config {B} (f : manager → B) json_dumps (c : call) :
  (∀ p m, f (set_pending_device_flows p m) = f m) →
  (∀ v m, f (set_active_account_id v m) = f m) →
  (∀ a m, f (set_app a m) = f m) →
  (∀ l s m, f (log l s m) = f m) →
  ∀ m, f (step json_dumps c m) = f m.
Proof.
  intros H1 H2 H3 H4 m. destruct c; simpl.
  - by apply keeps_list_accounts.
  - by apply keeps_get_active_account.
  - by apply keeps_set_active_account.
  - by apply keeps_get_active_account_summary.
  - by apply keeps_acquire_token_silent.
  - by apply keeps_start_device_login.
  - by apply keeps_complete_device_login.
  - by apply keeps_get_context.
  - apply H3.
Qed.

(** No session changes the configuration of the manager: through
    any sequence of calls, with any answers from the provider and the
    file system, the scopes and the cache path stay what they were. *)
Theorem session_keeps_configuration (json_dumps : response → string)
    (calls : list call) (m : manager) :
  _scopes (session json_dumps calls m) = _scopes m ∧
  _cache_path (session json_dumps calls m) = _cache_path m.
Proof.
  revert m. induction calls as [|c calls IH]; intros m; [done|].
  simpl. destruct (IH (step json_dumps c m)) as [-> ->].
  split; by apply keeps_step_config.
Qed.

(** X17.  A pending flow stays pending, with the flow it was stored
    with, through every session that neither completes it nor has the
    generator hand out its identifier again: nothing else evicts or
    rewrites it. *)
Theorem session_keeps_pending_flow (json_dumps : response → string)
    (calls : list call) (m : manager) (flow_id : string) :
  Forall (λ c, ¬ issues flow_id c ∧ ¬ completes flow_id c) calls →
  _pending_device_flows (session json_dumps calls m) !! flow_id
  = _pending_device_flows m !! flow_id.
Proof.
  intros Hcalls. revert m.
  induction Hcalls as [|c calls [Hi Hc] _ IH]; intros m; [done|].
  simpl. rewrite IH. clear IH. destruct c; simpl.
  - by rewrite keeps_list_accounts.
  - by rewrite keeps_get_active_account.
  - by rewrite keeps_set_active_account.
  - by rewrite keeps_get_active_account_summary.
  - by rewrite keeps_acquire_token_silent.
  - rewrite start_device_login_pending; [done|]. intros ->. by apply Hi.
  - rewrite complete_device_login_pending.
    apply lookup_delete_ne. intros ->. by apply Hc.
  - by rewrite keeps_get_context.
  - done.
Qed.

End FurtherProperties.

Section FurtherSampleSessions.

#[local] Existing Instance latin_lower.

(** ** The further properties on sample sessions *)

Lemma list_accounts_flags_pointer_witness :
  ∃ summaries,
    list_accounts (manager_on [alice; bob] (Some "uid-bob.tenant-1")) =
      (Return summaries, manager_on [alice; bob] (Some "uid-bob.tenant-1")) ∧
    ∀ s, s ∈ summaries →
         (is_active s = true ↔ Some (home_account_id s) = Some "uid-bob.tenant-1").
Proof.
  apply (list_accounts_flags_pointer
           (manager_on [alice; bob] (Some "uid-bob.tenant-1"))).
  reflexivity.
Defined.

Lemma list_accounts_no_selection_witness :
  ∃ summaries,
    list_accounts (manager_on [alice; bob] None) =
      (Return summaries, manager_on [alice; bob] None) ∧
    active_count summaries = 0.
Proof.
  apply (list_accounts_no_selection (manager_on [alice; bob] None)).
  - reflexivity.
  - simpl. lia.
Defined.

Lemma set_active_account_then_get_witness :
  ∃ b, get_active_account (manager_on [alice; bob] (Some "uid-bob.tenant-1")) =
         (Return (Some b), manager_on [alice; bob] (Some "uid-bob.tenant-1")) ∧
       b ∈ [alice; bob] ∧
       b !! "home_account_id" = Some "uid-bob.tenant-1" ∧
       (NoDup (map listed_id [alice; bob]) →
        _serialize_account (manager_on [alice; bob] (Some "uid-bob.tenant-1"))
                           (Some b)
        = Some (mkAccountSummary "Bob@Example.com" None "uid-bob.tenant-1"
                  (Some "login.microsoftonline.com") None true)).
Proof.
  apply (set_active_account_then_get None (Some "bob@example.com")
           (manager_on [alice; bob] None)
           (manager_on [alice; bob] (Some "uid-bob.tenant-1"))
           (mkAccountSummary "Bob@Example.com" None "uid-bob.tenant-1"
              (Some "login.microsoftonline.com") None true)).
  - reflexivity.
  - discriminate.
Defined.

Lemma acquire_token_silent_returns_token_witness :
  acquire_token_silent plain_json granting_provider saving
      (manager_on [alice] (Some "uid-alice.tenant-1")) =
    (Return "access-token-text", manager_on [alice] (Some "uid-alice.tenant-1")) ∧
  _active_account_id (manager_on [alice] (Some "uid-alice.tenant-1"))
  = _active_account_id (manager_on [alice] (Some "uid-alice.tenant-1")).
Proof.
  apply (acquire_token_silent_returns_token plain_json granting_provider saving
           (manager_on [alice] (Some "uid-alice.tenant-1"))
           (manager_on [alice] (Some "uid-alice.tenant-1"))
           alice (granted None) (sample_app [alice] false) "access-token-text");
    reflexivity.
Defined.

Lemma acquire_token_silent_needs_selection_witness :
  acquire_token_silent plain_json granting_provider saving
      (manager_on [alice; bob] None) =
    (Raise (Exn AuthenticationError
       "No active Microsoft account selected. Use the authentication tools to sign in and select an account."),
     snd (get_active_account (manager_on [alice; bob] None))) ∧
  truthy (_active_account_id
            (snd (get_active_account (manager_on [alice; bob] None)))) = false.
Proof.
  apply (acquire_token_silent_needs_selection plain_json granting_provider saving
           (manager_on [alice; bob] None)).
  - reflexivity.
  - simpl. lia.
Defined.

Lemma acquire_token_silent_failure_message_witness :
  ∃ msg,
    acquire_token_silent plain_json denying_provider saving
        (manager_on [alice] (Some "uid-alice.tenant-1")) =
      (Raise (Exn AuthenticationError msg),
       set_app (sample_app [alice] false)
               (manager_on [alice] (Some "uid-alice.tenant-1"))) ∧
    msg = "Unable to acquire a token silently. Complete the device login flow first.".
Proof.
  destruct (acquire_token_silent_failure_message plain_json denying_provider
              saving (manager_on [alice] (Some "uid-alice.tenant-1")) alice None
              (sample_app [alice] false) eq_refl eq_refl eq_refl)
    as (msg & Hcall & _ & _ & Hbase).
  exists msg. split; [exact Hcall|]. apply Hbase. by left.
Defined.

Lemma sample_flow_nonempty : sample_flow ≠ ∅.
Proof.
  intros H. apply (f_equal (λ d, d !! "user_code")) in H. discriminate H.
Defined.

Lemma complete_device_login_denied_witness :
  ∃ msg,
    complete_device_login "flow-1" None denying_exchange saving
        (manager_awaiting "flow-1") =
      (Raise (Exn AuthenticationError msg),
       set_app (sample_app [] false)
         (set_pending_device_flows
            (delete "flow-1" (_pending_device_flows (manager_awaiting "flow-1")))
            (manager_awaiting "flow-1"))) ∧
    msg = "Device login did not succeed.".
Proof.
  destruct (complete_device_login_denied "flow-1" None denying_exchange saving
              (manager_awaiting "flow-1") sample_flow None (sample_app [] false)
              eq_refl sample_flow_nonempty eq_refl eq_refl)
    as (msg & Hcall & _ & Hbase & _).
  exists msg. split; [exact Hcall|]. by apply Hbase.
Defined.

Lemma complete_device_login_provider_raises_witness :
  fst (complete_device_login "flow-1" (Some 30%Z) failing_exchange saving
         (manager_awaiting "flow-1"))
  = Raise (Exn OtherException "connection reset by peer").
Proof.
  destruct (complete_device_login_provider_raises "flow-1" (Some 30%Z)
              failing_exchange saving (manager_awaiting "flow-1") sample_flow
              (Exn OtherException "connection reset by peer") (sample_app [] false)
              eq_refl sample_flow_nonempty eq_refl) as [Hcall _].
  by rewrite Hcall.
Defined.

Lemma start_device_login_outcome_witness :
  ∃ instructions m',
    start_device_login (Return sample_flow) "flow-1" (manager_on [] None)
      = (Return instructions, m') ∧
    _pending_device_flows m' = <["flow-1" := sample_flow]> ∅ ∧
    instructions !! "user_code" = Some (PStr "ABCD-EFGH").
Proof.
  destruct (proj1 (start_device_login_outcome sample_flow "flow-1"
                     (manager_on [] None)) (PStr "ABCD-EFGH") eq_refl)
    as (instructions & m' & Hcall & Hpending & _ & _ & _ & _ & _ & Hcode & _).
  exists instructions, m'. by repeat split.
Defined.

Lemma save_cache_best_effort_witness :
  ∃ m', _save_cache read_only
          (set_app (sample_app [alice] true) (manager_on [alice] None))
        = (Return tt, m') ∧
        length (_logger m') = 1.
Proof.
  destruct (proj2 (save_cache_best_effort read_only
                     (set_app (sample_app [alice] true) (manager_on [alice] None)))
              (Exn PermissionError "[Errno 13] Permission denied")
              (sample_app [alice] true) eq_refl eq_refl eq_refl)
    as (m' & Hcall & Hlog & _).
  exists m'. split; [exact Hcall|]. by rewrite Hlog.
Defined.

Lemma get_context_promotes_after_reporting_witness :
  ∃ c s, get_context (manager_on [alice] (Some "uid-carol.tenant-1")) =
           (Return c, set_active_account_id (Some "uid-alice.tenant-1")
                        (manager_on [alice] (Some "uid-carol.tenant-1"))) ∧
         ctx_active_account c = None ∧
         ctx_available_accounts c = [s] ∧
         is_active s = true ∧ home_account_id s = "uid-alice.tenant-1".
Proof.
  apply (get_context_promotes_after_reporting
           (manager_on [alice] (Some "uid-carol.tenant-1")) alice
           "uid-alice.tenant-1"); try reflexivity.
  discriminate.
Defined.

Lemma list_accounts_promotes_sole_account_witness :
  ∃ s, list_accounts (manager_on [alice] None) =
         (Return [s], set_active_account_id (Some "uid-alice.tenant-1")
                        (manager_on [alice] None)) ∧
       is_active s = true ∧ home_account_id s = "uid-alice.tenant-1" ∧
       list_accounts (set_active_account_id (Some "uid-alice.tenant-1")
                        (manager_on [alice] None)) =
         (Return [s], set_active_account_id (Some "uid-alice.tenant-1")
                        (manager_on [alice] None)).
Proof.
  apply (list_accounts_promotes_sole_account (manager_on [alice] None) alice
           "uid-alice.tenant-1"); try reflexivity.
  discriminate.
Defined.

Lemma init_fresh_session_witness :
  ∃ m, __init__ deserialize_alice normal_path constructing
         "client-id" "" ["User.Read"] "/tmp/cache.bin"
         (Present (Return "{}")) = Return m ∧
       _active_account_id m = None ∧ _pending_device_flows m = ∅ ∧
       _cache_path m = "/tmp/cache.bin" ∧
       app_accounts (_app m) = [alice].
Proof.
  eexists. split; [reflexivity|].
  match goal with
  | |- _active_account_id ?m = _ ∧ _ =>
      destruct (init_fresh_session deserialize_alice normal_path constructing
                  "client-id" "" ["User.Read"] "/tmp/cache.bin"
                  (Present (Return "{}")) m eq_refl)
        as (_ & _ & Hptr & Hpending & _ & Hpath & _ & accounts & Happ & Hload)
  end.
  split; [exact Hptr|]. split; [exact Hpending|]. split; [exact Hpath|].
  destruct (Hload "{}" [alice] eq_refl) as [-> _]; [discriminate | reflexivity|].
  reflexivity.
Defined.

Lemma session_keeps_pending_flow_witness :
  _pending_device_flows
    (session plain_json
       [ListAccounts; StartDeviceLogin (Return sample_flow) "flow-2";
        CompleteDeviceLogin "flow-2" None denying_exchange saving]
       (manager_awaiting "flow-1")) !! "flow-1"
  = _pending_device_flows (manager_awaiting "flow-1") !! "flow-1".
Proof.
  apply (session_keeps_pending_flow plain_json
           [ListAccounts; StartDeviceLogin (Return sample_flow) "flow-2";
            CompleteDeviceLogin "flow-2" None denying_exchange saving]
           (manager_awaiting "flow-1") "flow-1").
  repeat constructor; simpl; try tauto; discriminate.
Defined.

End FurtherSampleSessions.

(** * Text *)

Section ClientProperties.

Context {str_lower : StrLower}.

Section Strip.
Context (p : ascii → bool).

Lemma lstrip_with_head (s : string) :
  lstrip_with p s = "" ∨
  ∃ c rest, lstrip_with p s = String c rest ∧ p c = false.
Proof.
  induction s as [|c rest IH]; simpl; [by left|].
  destruct (p c) eqn:Hc; [done|]. right. eauto.
Qed.

Lemma lstrip_with_kept (c : ascii) (rest : string) :
  p c = false → lstrip_with p (String c rest) = String c rest.
Proof. intros Hc. simpl. by rewrite Hc. Qed.

Lemma rstrip_with_kept (c : ascii) (rest : string) :
  p c = false → ∃ kept, rstrip_with p (String c rest) = String c kept.
Proof.
  intros Hc. simpl. destruct (rstrip_with p rest); rewrite ?Hc; eauto.
Qed.

Lemma rstrip_with_idem (s : string) :
  rstrip_with p (rstrip_with p s) = rstrip_with p s.
Proof.
  induction s as [|c rest IH]; [done|]. simpl.
  destruct (rstrip_with p rest) as [|d kept] eqn:Hrest.
  - destruct (p c) eqn:Hc; [done|]. simpl. by rewrite Hc.
  - simpl. simpl in IH. by rewrite IH.
Qed.

Lemma strip_with_idem (s : string) :
  strip_with p (strip_with p s) = strip_with p s.
Proof.
  unfold strip_with.
  destruct (lstrip_with_head s) as [-> | (c & rest & -> & Hc)]; [done|].
  destruct (rstrip_with_kept c rest Hc) as [kept Hkept].
  rewrite Hkept, (lstrip_with_kept _ _ Hc), <- Hkept.
  apply rstrip_with_idem.
Qed.

End Strip.

(** ** Splitting and joining *)

Lemma split_char_nonempty (sep : ascii) (s : string) : split_char sep s ≠ [].
Proof.
  destruct s as [|c rest]; simpl; [done|].
  case_bool_decide; [done|]. by destruct (split_char sep rest).
Qed.

(** No piece of a split contains the separator. *)
Lemma split_char_pieces (sep : ascii) (s : string) (x : string) :
  x ∈ split_char sep s → has_char sep x = false.
Proof.
  revert x. induction s as [|c rest IH]; simpl; intros x Hx.
  - apply list_elem_of_singleton in Hx as ->. done.
  - case_bool_decide as Hc.
    + apply elem_of_cons in Hx as [->|Hx]; [done | by apply IH].
    + destruct (split_char sep rest) as [|first others] eqn:Hrest.
      * apply list_elem_of_singleton in Hx as ->. simpl.
        rewrite bool_decide_eq_false_2 by done. done.
      * apply elem_of_cons in Hx as [->|Hx].
        -- simpl. rewrite bool_decide_eq_false_2 by done.
           apply IH. left.
        -- apply IH. by right.
Qed.

(** Splitting a piece that does not contain the separator, followed by
    the separator and more text. *)
Lemma split_char_app (sep : ascii) (x rest : string) :
  has_char sep x = false →
  split_char sep (x ++ String sep rest) = x :: split_char sep rest.
Proof.
  induction x as [|c x IH]; simpl; intros Hx.
  - by rewrite bool_decide_eq_true_2.
  - apply orb_false_iff in Hx as [Hc Hx]. apply bool_decide_eq_false in Hc.
    rewrite bool_decide_eq_false_2 by done. simpl in IH. by rewrite IH.
Qed.

Lemma split_char_whole (sep : ascii) (x : string) :
  has_char sep x = false → split_char sep x = [x].
Proof.
  induction x as [|c x IH]; simpl; intros Hx; [done|].
  apply orb_false_iff in Hx as [Hc Hx]. apply bool_decide_eq_false in Hc.
  rewrite bool_decide_eq_false_2 by done. by rewrite IH.
Qed.

(** Splitting undoes joining, for pieces without the separator. *)
Lemma split_char_join_char (sep : ascii) (l : list string) :
  l ≠ [] →
  Forall (λ x, has_char sep x = false) l →
  split_char sep (join_char sep l) = l.
Proof.
  intros Hl Hall. induction Hall as [|x rest Hx Hrest IH]; [done|].
  destruct rest as [|y rest].
  - simpl. by apply split_char_whole.
  - change (join_char sep (x :: y :: rest))
      with (x ++ String sep (join_char sep (y :: rest))).
    rewrite split_char_app by done. by rewrite IH.
Qed.

Lemma has_char_split_char (sep c : ascii) (s x : string) :
  x ∈ split_char sep s → has_char c x = true → has_char c s = true.
Proof.
  revert x. induction s as [|d rest IH]; simpl; intros x Hx Hc.
  - apply list_elem_of_singleton in Hx as ->. done.
  - case_bool_decide as Hd.
    + apply elem_of_cons in Hx as [->|Hx]; [done|].
      rewrite (IH x) by done. apply orb_true_r.
    + destruct (split_char sep rest) as [|first others] eqn:Hrest.
      * apply list_elem_of_singleton in Hx as ->. simpl in Hc.
        rewrite orb_false_r in Hc. by rewrite Hc.
      * apply elem_of_cons in Hx as [->|Hx].
        -- simpl in Hc. apply orb_true_iff in Hc as [->|Hc]; [done|].
           rewrite (IH first); [apply orb_true_r | left | done].
        -- rewrite (IH x); [apply orb_true_r | by right | done].
Qed.

(** ** White space *)

Lemma string_app_assoc (a b c : string) : a ++ b ++ c = (a ++ b) ++ c.
Proof.
  induction a as [|x a IH]; [done|].
  change (String x (a ++ b ++ c) = String x ((a ++ b) ++ c)). by rewrite IH.
Qed.

Lemma has_char_app (c : ascii) (s t : string) :
  has_char c (s ++ t) = has_char c s || has_char c t.
Proof.
  induction s as [|d s IH]; simpl; [done|]. by rewrite IH, orb_assoc.
Qed.

Lemma app_String (a : ascii) (t w : string) : String a t ++ w = String a (t ++ w).
Proof. reflexivity. Qed.

(** [lstrip] by cases: it stops where no white space starts, and steps
    over a white-space character of one, two or three bytes. *)
Lemma lstrip_cases (P : string → string → Prop) :
  (∀ s, space_width s = 0 → P s s) →
  (∀ a t r, isspace a = true → P t r → P (String a t) r) →
  (∀ a b t r, isspace a = false → isspace2 a b = true →
              P t r → P (String a (String b t)) r) →
  (∀ a b c t r, isspace a = false → isspace2 a b = false →
                isspace3 a b c = true →
                P t r → P (String a (String b (String c t))) r) →
  ∀ s, P s (lstrip s).
Proof.
  intros Hstop H1 H2 H3 s.
  assert (Hn : ∀ n s, String.length s ≤ n → P s (lstrip s));
    [|by apply (Hn (String.length s))].
  clear s. induction n as [|n IH]; intros s Hlen.
  { destruct s; [|simpl in Hlen; lia]. by apply Hstop. }
  destruct s as [|a t1]; [by apply Hstop|].
  cbn [lstrip]. destruct (isspace a) eqn:Ha.
  { apply H1; [done|]. apply IH. simpl in Hlen. lia. }
  destruct t1 as [|b t2]; [apply Hstop; simpl; by rewrite Ha|].
  destruct (isspace2 a b) eqn:Hab.
  { apply H2; [done..|]. apply IH. simpl in Hlen. lia. }
  destruct t2 as [|c t3]; [apply Hstop; simpl; by rewrite Ha, Hab|].
  destruct (isspace3 a b c) eqn:Habc.
  { apply H3; [done..|]. apply IH. simpl in Hlen. lia. }
  apply Hstop. simpl. by rewrite Ha, Hab, Habc.
Qed.

Lemma lstrip_fixed (s : string) : space_width s = 0 → lstrip s = s.
Proof.
  destruct s as [|a [|b [|c t]]]; cbn [space_width lstrip]; [done|..].
  - by destruct (isspace a).
  - destruct (isspace a); [done|]. by destruct (isspace2 a b).
  - destruct (isspace a); [done|]. destruct (isspace2 a b); [done|].
    by destruct (isspace3 a b c).
Qed.

Lemma space_width_lstrip (s : string) : space_width (lstrip s) = 0.
Proof. by apply (lstrip_cases (λ _ r, space_width r = 0)). Qed.

Lemma lstrip_idem (s : string) : lstrip (lstrip s) = lstrip s.
Proof. apply lstrip_fixed, space_width_lstrip. Qed.

(** What [lstrip] keeps is an end of the text. *)
Lemma lstrip_suffix (s : string) : ∃ w, s = w ++ lstrip s.
Proof.
  apply (lstrip_cases (λ s r, ∃ w, s = w ++ r)).
  - intros s' _. by exists "".
  - intros a t r _ [w ->]. by exists (String a w).
  - intros a b t r _ _ [w ->]. by exists (String a (String b w)).
  - intros a b c t r _ _ _ [w ->]. by exists (String a (String b (String c w))).
Qed.

(** After text that is white space throughout, [lstrip] goes on. *)
Lemma lstrip_app_blank (x w : string) :
  lstrip x = "" → lstrip (x ++ w) = lstrip w.
Proof.
  apply (lstrip_cases (λ x r, r = "" → lstrip (x ++ w) = lstrip w)).
  - by intros s' _ ->.
  - intros a t r Ha IH Hr. rewrite app_String. cbn [lstrip]. rewrite Ha. auto.
  - intros a b t r Ha Hab IH Hr. rewrite !app_String. cbn [lstrip].
    rewrite Ha, Hab. auto.
  - intros a b c t r Ha Hab Habc IH Hr. rewrite !app_String. cbn [lstrip].
    rewrite Ha, Hab, Habc. auto.
Qed.

(** What [rstrip] keeps is a start of the text, and what it drops is
    white space throughout. *)
Lemma rstrip_prefix (s : string) : ∃ w, s = rstrip s ++ w ∧ lstrip w = "".
Proof.
  induction s as [|c s (w & IH & Hw)]; [by exists ""|].
  cbn [rstrip]. case_bool_decide as Hall.
  - by exists (String c s).
  - exists w. split; [|done]. rewrite app_String. by rewrite <- IH.
Qed.

Lemma rstrip_idem (s : string) : rstrip (rstrip s) = rstrip s.
Proof.
  induction s as [|c s IH]; [done|].
  cbn [rstrip]. case_bool_decide as Hall; [done|].
  cbn [rstrip]. rewrite IH.
  rewrite bool_decide_eq_false_2; [done|]. intros Hkept. apply Hall.
  destruct (rstrip_prefix s) as (w & Hs & Hw).
  rewrite Hs at 1. rewrite <- app_String.
  by rewrite (lstrip_app_blank _ _ Hkept).
Qed.

(** White space at the head of a text is at the head of every text
    that starts with it. *)
Lemma space_width_prefix (x w : string) :
  space_width (x ++ w) = 0 → space_width x = 0.
Proof.
  destruct x as [|a [|b [|c t]]]; [done|..]; rewrite ?app_String;
    cbn [space_width].
  - by destruct (isspace a).
  - destruct (isspace a); [done|]. by destruct (isspace2 a b).
  - done.
Qed.

Lemma strip_idem (s : string) : strip (strip s) = strip s.
Proof.
  unfold strip.
  assert (Hhead : lstrip (rstrip (lstrip s)) = rstrip (lstrip s)).
  { apply lstrip_fixed.
    destruct (rstrip_prefix (lstrip s)) as (w & Hw & _).
    apply (space_width_prefix _ w). rewrite <- Hw. apply space_width_lstrip. }
  rewrite Hhead. apply rstrip_idem.
Qed.

Lemma has_char_strip (x : ascii) (s : string) :
  has_char x (strip s) = true → has_char x s = true.
Proof.
  unfold strip. intros Hx.
  destruct (lstrip_suffix s) as [w Hs].
  destruct (rstrip_prefix (lstrip s)) as (w' & Hr & _).
  rewrite Hs, Hr, !has_char_app, Hx. by rewrite orb_true_r.
Qed.

(** Text made of one-byte white space is stripped to nothing. *)
Lemma strip_blank (s : string) :
  (∀ c, has_char c s = true → isspace c = true) → strip s = "".
Proof.
  intros Hall. unfold strip.
  assert (Hl : lstrip s = ""); [|by rewrite Hl].
  induction s as [|c rest IH]; [done|]. cbn [lstrip].
  rewrite Hall by (simpl; by rewrite bool_decide_eq_true_2).
  apply IH. intros d Hd. apply Hall. simpl. rewrite Hd. apply orb_true_r.
Qed.

(** * The configured scopes *)

Lemma DEFAULT_SCOPES_clean :
  Forall (λ x, x ≠ "" ∧ strip x = x ∧ has_char "," x = false) DEFAULT_SCOPES.
Proof. repeat constructor; done. Qed.

(** X18.  The scope list the server starts with is never empty, and
    each of its entries is non-empty, carries no surrounding white
    space and contains no comma, whatever [MCP_GRAPH_SCOPES] holds. *)
Theorem configured_scopes_clean (scopes_env : option string) :
  configured_scopes scopes_env ≠ [] ∧
  ∀ x, x ∈ configured_scopes scopes_env →
       x ≠ "" ∧ strip x = x ∧ has_char "," x = false.
Proof.
  pose proof DEFAULT_SCOPES_clean as Hdefault.
  rewrite Forall_forall in Hdefault.
  unfold configured_scopes. destruct (truthy scopes_env); [|by split].
  destruct (filter _ _) as [|y l] eqn:Hfilter; [by split|].
  split; [done|]. intros x Hx. rewrite <- Hfilter in Hx.
  apply list_elem_of_filter in Hx as [Hne Hx].
  apply list_elem_of_fmap in Hx as (piece & -> & Hpiece).
  split; [done|]. split; [apply strip_idem|].
  destruct (has_char "," (strip piece)) eqn:Hcomma; [|done].
  apply has_char_strip in Hcomma.
  by rewrite (split_char_pieces _ _ _ Hpiece) in Hcomma.
Qed.

(** X19.  When [MCP_GRAPH_SCOPES] is unset, empty, or made of commas
    and one-byte white space only, the server starts with the default
    scopes. *)
Theorem configured_scopes_default (scopes_env : option string) :
  (∀ s c, scopes_env = Some s → has_char c s = true →
          c = ","%char ∨ isspace c = true) →
  configured_scopes scopes_env = DEFAULT_SCOPES.
Proof.
  intros Hblank. unfold configured_scopes.
  destruct (truthy scopes_env) eqn:Ht; [|done].
  apply truthy_Some in Ht as (s & -> & _). simpl.
  assert (Hnil : ∀ pieces, Forall (λ piece, strip piece = "") pieces →
                 filter (λ scope, scope ≠ "") (map strip pieces) = []).
  { intros pieces Hall. induction Hall as [|piece rest Hpiece _ IH]; [done|].
    cbn [map]. rewrite filter_cons, Hpiece, decide_False by (by intros H).
    done. }
  rewrite Hnil; [done|]. apply Forall_forall. intros piece Hpiece.
  apply strip_blank. intros c Hc.
  destruct (Hblank s c eq_refl (has_char_split_char _ _ _ _ Hpiece Hc))
    as [-> | Hspace]; [|done].
  by rewrite (split_char_pieces _ _ _ Hpiece) in Hc.
Qed.

(** X20.  A non-empty list of scopes, each non-empty, without
    surrounding white space and without comma, is read back unchanged
    from its comma-separated text. *)
Theorem configured_scopes_join (l : list string) :
  l ≠ [] →
  Forall (λ x, x ≠ "" ∧ strip x = x ∧ has_char "," x = false) l →
  configured_scopes (Some (join_char "," l)) = l.
Proof.
  intros Hl Hall.
  assert (Hjoin : join_char "," l ≠ "").
  { destruct Hall as [|x rest [Hx _] _]; [done|].
    destruct rest; simpl; [done|]. by destruct x. }
  unfold configured_scopes. rewrite (truthy_of_nonempty _ Hjoin). simpl.
  rewrite split_char_join_char; [|done|].
  2:{ eapply Forall_impl; [exact Hall|]. by intros x (_ & _ & ?). }
  assert (Hid : filter (λ scope, scope ≠ "") (map strip l) = l).
  { clear Hl Hjoin. induction Hall as [|x rest (Hx & Hstrip & _) _ IH]; [done|].
    cbn [map]. rewrite filter_cons, Hstrip, decide_True by done.
    by rewrite IH. }
  rewrite Hid. by destruct l.
Qed.

Lemma configured_scopes_default_witness :
  configured_scopes (Some " , ,, ") = DEFAULT_SCOPES.
Proof.
  apply (configured_scopes_default (Some " , ,, ")).
  intros s c [= <-] Hc. simpl in Hc.
  repeat (apply orb_true_iff in Hc as [Hc|Hc];
          [apply bool_decide_eq_true in Hc as ->; auto|]).
  discriminate.
Defined.

Lemma configured_scopes_join_witness :
  configured_scopes (Some "User.Read,Files.Read") = ["User.Read"; "Files.Read"].
Proof.
  apply (configured_scopes_join ["User.Read"; "Files.Read"]); [done|].
  repeat constructor; done.
Defined.

(** * The Graph client *)

(** ** Requests *)

(** A failed acquisition is all that happens. *)
Lemma request_without_token
    (json_dumps : response → string)
    (provider : manager → gmap string string → provider_answer)
    (persist : app → outcome unit * app)
    (send : GraphClient.http_request → GraphClient.http_answer)
    (method endpoint : string) params json_body data headers (stream : bool)
    (g : GraphClient.graph_client) (e : exn) (m' : manager) :
  acquire_token_silent json_dumps provider persist (GraphClient._auth_manager g)
    = (Raise e, m') →
  GraphClient._request json_dumps provider persist send
      method endpoint params json_body data headers stream g
  = (GraphClient.GRaise (GraphClient.Propagated e),
     GraphClient.set_auth_manager m' g).
Proof.
  intros Hacquire.
  unfold GraphClient._request, GraphClient._authorization_headers,
    GraphClient.gbind, GraphClient.on_manager.
  by rewrite Hacquire.
Qed.

(** What [_request] does once the token is there. *)
Lemma request_with_token
    (json_dumps : response → string)
    (provider : manager → gmap string string → provider_answer)
    (persist : app → outcome unit * app)
    (send : GraphClient.http_request → GraphClient.http_answer)
    (method endpoint : string) params json_body data headers (stream : bool)
    (g : GraphClient.graph_client) (token : string) (m' : manager) :
  acquire_token_silent json_dumps provider persist (GraphClient._auth_manager g)
    = (Return token, m') →
  let authorized : gmap string string :=
    default ∅ headers ∪ {["Authorization" := "Bearer " ++ token]} in
  let request_headers :=
    if bool_decide (is_Some json_body)
       && negb (bool_decide (is_Some (authorized !! "Content-Type")))
       && negb stream && negb (bool_decide (is_Some data))
    then <["Content-Type" := "application/json"]> authorized
    else authorized in
  let rq := GraphClient.mkRequest method (GraphClient._base_url g ++ endpoint)
              params json_body data request_headers stream in
  let g' := GraphClient.set_auth_manager m' g in
  GraphClient._request json_dumps provider persist send
      method endpoint params json_body data headers stream g
  = match send rq with
    | GraphClient.RequestException str_exc =>
        (GraphClient.GRaise
           (GraphClient.GraphAPIError "Network error while calling Microsoft Graph"
              None (GraphClient.DetailText str_exc)), g')
    | GraphClient.Responded r =>
        let success := (200 <=? GraphClient.status_code r)%Z
                       && (GraphClient.status_code r <? 300)%Z in
        let failure :=
          GraphClient.GraphAPIError
            ("Microsoft Graph request failed with status "
             ++ pretty (GraphClient.status_code r))
            (Some (GraphClient.status_code r)) (GraphClient._safe_json r) in
        if stream then
          if success then (GraphClient.GReturn (GraphClient.Streamed r), g')
          else (GraphClient.GRaise failure, g')
        else if success then
          if negb (bool_decide (GraphClient.content r = "")) then
            match GraphClient.parsed_json r with
            | Some j => (GraphClient.GReturn (GraphClient.Parsed j), g')
            | None => (GraphClient.GReturn
                         (GraphClient.RawBytes (GraphClient.content r)), g')
            end
          else (GraphClient.GReturn
                  (GraphClient.Parsed (GraphClient.JDict [])), g')
        else (GraphClient.GRaise failure, g')
    end.
Proof.
  intros Hacquire authorized request_headers rq g'.
  unfold GraphClient._request, GraphClient._authorization_headers,
    GraphClient.gbind, GraphClient.on_manager.
  rewrite Hacquire. cbn [GraphClient.gret].
  change (GraphClient._base_url (GraphClient.set_auth_manager m' g))
    with (GraphClient._base_url g).
  fold authorized. fold request_headers.
  fold g'. unfold rq.
  destruct (send _) as [r|str_exc]; [|done].
  destruct stream; cbn zeta; repeat case_match; reflexivity.
Qed.

(** ** Occurrences of a separator *)

Lemma strip_prefix_self (sep x : string) : strip_prefix sep (sep ++ x) = Some x.
Proof.
  induction sep as [|c sep IH]; simpl; [by destruct x|].
  by rewrite bool_decide_eq_true_2.
Qed.

Lemma strip_prefix_app (sep t x after : string) :
  strip_prefix sep t = Some after → strip_prefix sep (t ++ x) = Some (after ++ x).
Proof.
  revert t. induction sep as [|c sep IH]; intros t; simpl.
  - destruct t; intros [= <-]; done.
  - destruct t as [|d t]; [done|]. simpl. case_bool_decide; [apply IH | done].
Qed.

(** If [h] starts [q ++ y], then [h] lies within [q] or [q] within [h]. *)
Lemma strip_prefix_overlap (h q y r : string) :
  strip_prefix h (q ++ y) = Some r →
  (∀ c, has_char c h = true → has_char c q = true) ∨
  (∀ c, has_char c q = true → has_char c h = true).
Proof.
  revert q. induction h as [|a h IH]; intros q; [by left|].
  destruct q as [|b q]; [by right|]. simpl.
  case_bool_decide as Hab; [subst b | done]. intros Hr.
  destruct (IH q Hr) as [Hin | Hin]; [left | right]; intros c Hc;
    apply orb_true_iff in Hc as [Hc|Hc]; apply orb_true_iff; auto.
Qed.

Lemma endswith_char_has_char (c : ascii) (s : string) :
  endswith_char c s = true → has_char c s = true.
Proof.
  induction s as [|d s IH]; [done|]. simpl. destruct s as [|e s].
  - intros H. apply bool_decide_eq_true in H as ->.
    by rewrite bool_decide_eq_true_2.
  - intros H. rewrite IH by done. apply orb_true_r.
Qed.

Lemma find_split_unfold (sep s : string) :
  find_split sep s =
  match strip_prefix sep s with
  | Some after => Some ("", after)
  | None =>
      match s with
      | EmptyString => None
      | String c rest =>
          match find_split sep rest with
          | Some (before, after) => Some (String c before, after)
          | None => None
          end
      end
  end.
Proof. by destruct s. Qed.

Lemma find_split_self (sep x : string) : find_split sep (sep ++ x) = Some ("", x).
Proof. by rewrite find_split_unfold, strip_prefix_self. Qed.

(** The first occurrence of [h] in [q ++ h ++ x] is the one after [q],
    when [q] ends with a character that [h] lacks and [h] has a
    character that [q] lacks. *)
Lemma find_split_late (h q x : string) (inside ending : ascii) :
  has_char inside h = true → has_char inside q = false →
  has_char ending h = false → q = "" ∨ endswith_char ending q = true →
  find_split h (q ++ h ++ x) = Some (q, x).
Proof.
  intros Hin Hout Hend. induction q as [|b q IH]; intros Hq.
  - exact (find_split_self h x).
  - assert (Hnone : strip_prefix h (String b q ++ h ++ x) = None).
    { destruct (strip_prefix h (String b q ++ h ++ x)) as [r|] eqn:Hr; [|done].
      destruct Hq as [|Hq]; [done|].
      apply strip_prefix_overlap in Hr as [Hsub | Hsub].
      - rewrite (Hsub inside Hin) in Hout. done.
      - rewrite (Hsub ending (endswith_char_has_char _ _ Hq)) in Hend. done. }
    rewrite find_split_unfold, Hnone.
    change (String b q ++ h ++ x) with (String b (q ++ h ++ x)).
    simpl in Hout. apply orb_false_iff in Hout as [_ Hout].
    rewrite IH; [done | done |].
    destruct q as [|c q]; [by left|]. right.
    destruct Hq as [|Hq]; [done|]. exact Hq.
Qed.

(** The first occurrence of a separator whose first character does not
    occur in [pre]. *)
Lemma find_split_first (c : ascii) (sep pre x : string) :
  has_char c pre = false →
  find_split (String c sep) (pre ++ String c sep ++ x) = Some (pre, x).
Proof.
  intros Hpre. induction pre as [|d pre IH].
  - exact (find_split_self (String c sep) x).
  - simpl in Hpre. apply orb_false_iff in Hpre as [Hd Hpre].
    apply bool_decide_eq_false in Hd.
    rewrite find_split_unfold.
    change (String d pre ++ String c sep ++ x)
      with (String d (pre ++ String c sep ++ x)).
    cbn [strip_prefix].
    rewrite bool_decide_eq_false_2 by done. by rewrite IH.
Qed.

Lemma find_split_cons (sep rest : string) (c : ascii) :
  is_Some (find_split sep rest) → is_Some (find_split sep (String c rest)).
Proof.
  intros [[before after] H]. rewrite find_split_unfold.
  destruct (strip_prefix sep (String c rest)); [eauto|]. rewrite H. eauto.
Qed.

Lemma find_split_app (sep t x : string) :
  is_Some (find_split sep t) → is_Some (find_split sep (t ++ x)).
Proof.
  induction t as [|c t IH]; intros [[before after] H];
    rewrite find_split_unfold in H.
  - destruct (strip_prefix sep "") as [a|] eqn:Hp; [|done].
    rewrite find_split_unfold, (strip_prefix_app _ _ x _ Hp). eauto.
  - rewrite find_split_unfold.
    destruct (strip_prefix sep (String c t)) as [a|] eqn:Hp.
    + rewrite (strip_prefix_app _ _ x _ Hp). eauto.
    + destruct (strip_prefix sep (String c t ++ x)); [eauto|].
      change (String c t ++ x) with (String c (t ++ x)).
      destruct (find_split sep t) as [[b a]|] eqn:Ht; [|done].
      destruct (IH ltac:(eauto)) as [[b' a'] ->]. eauto.
Qed.

Lemma find_split_app_l (sep w t : string) :
  is_Some (find_split sep t) → is_Some (find_split sep (w ++ t)).
Proof.
  intros Ht. induction w as [|c w IH]; [done|].
  rewrite app_String. by apply find_split_cons.
Qed.

Lemma drop_last_prefix (s : string) : ∃ x, s = drop_last s ++ x.
Proof.
  induction s as [|c s [x IH]]; [by exists ""|]. simpl.
  destruct s as [|d s]; [by exists (String c "")|].
  exists x. simpl. simpl in IH. by rewrite IH at 1.
Qed.

(** What [get_site_by_url] searches for [//] is a part of the text it
    was given. *)
Lemma trimmed_contains (sep site_url : string) :
  let trimmed := strip site_url in
  let trimmed' := if endswith_char "/" trimmed then drop_last trimmed else trimmed in
  is_Some (find_split sep trimmed') → is_Some (find_split sep site_url).
Proof.
  intros trimmed trimmed' H.
  assert (Ht : is_Some (find_split sep trimmed)).
  { unfold trimmed' in H. destruct (endswith_char "/" trimmed); [|done].
    destruct (drop_last_prefix trimmed) as [x Hx]. rewrite Hx.
    by apply find_split_app. }
  unfold trimmed, strip in Ht.
  destruct (rstrip_prefix (lstrip site_url)) as (x & Hx & _).
  destruct (lstrip_suffix site_url) as [w Hw].
  rewrite Hw. apply find_split_app_l. rewrite Hx. by apply find_split_app.
Qed.

Section GraphFacts.
Context (json_dumps : response → string)
        (provider : manager → gmap string string → provider_answer)
        (persist : app → outcome unit * app)
        (send : GraphClient.http_request → GraphClient.http_answer)
        (repr : GraphClient.json → string).

Abbreviation request := (GraphClient._request json_dumps provider persist send).

(** A request changes nothing of the client but its manager. *)
Lemma request_frame method endpoint params json_body data headers stream g :
  ∃ m', snd (request method endpoint params json_body data headers stream g)
        = GraphClient.set_auth_manager m' g.
Proof.
  destruct (acquire_token_silent json_dumps provider persist
              (GraphClient._auth_manager g)) as [[token|e] m'] eqn:Hacquire.
  - exists m'. rewrite (request_with_token _ _ _ _ _ _ _ _ _ _ _ _ _ _ Hacquire).
    cbn zeta. repeat case_match; reflexivity.
  - exists m'. by rewrite (request_without_token _ _ _ _ _ _ _ _ _ _ _ _ _ _ Hacquire).
Qed.

(** X21.  No request leaves the client without a token: when
    [acquire_token_silent] raises, [_request] raises the same
    exception, whatever the network would answer; the client keeps its
    drive and base URL, and its manager is as the failed acquisition
    left it. *)
Theorem request_needs_token
    method endpoint params json_body data headers (stream : bool)
    (g : GraphClient.graph_client) (e : exn) (m' : manager) :
  acquire_token_silent json_dumps provider persist (GraphClient._auth_manager g)
    = (Raise e, m') →
  request method endpoint params json_body data headers stream g
  = (GraphClient.GRaise (GraphClient.Propagated e),
     GraphClient.set_auth_manager m' g) ∧
  GraphClient._active_drive_id (GraphClient.set_auth_manager m' g)
  = GraphClient._active_drive_id g.
Proof. intros Hacquire. split; [by apply request_without_token | done]. Qed.

(** X22.  With a token in hand and a network that answers [r], a plain
    (non-streaming) [_request] maps the status as follows: outside
    200..299 it raises [GraphAPIError] carrying the status and the body
    (as JSON when it parses, as text otherwise); inside, an empty body
    gives an empty dictionary, a body that parses gives the parsed
    value, and a body that does not parse is returned as raw bytes
    rather than raised. *)
Theorem request_outcome_by_status
    method endpoint params json_body data headers g token m'
    (r : GraphClient.http_response) :
  acquire_token_silent json_dumps provider persist (GraphClient._auth_manager g)
    = (Return token, m') →
  (∀ rq, send rq = GraphClient.Responded r) →
  let result := fst (request method endpoint params json_body data headers false g) in
  let status := GraphClient.status_code r in
  ((status < 200 ∨ 300 ≤ status)%Z →
     result = GraphClient.GRaise
       (GraphClient.GraphAPIError
          ("Microsoft Graph request failed with status " ++ pretty status)
          (Some status) (GraphClient._safe_json r))) ∧
  ((200 ≤ status < 300)%Z → GraphClient.content r = "" →
     result = GraphClient.GReturn (GraphClient.Parsed (GraphClient.JDict []))) ∧
  ((200 ≤ status < 300)%Z → GraphClient.content r ≠ "" →
     ∀ j, GraphClient.parsed_json r = Some j →
          result = GraphClient.GReturn (GraphClient.Parsed j)) ∧
  ((200 ≤ status < 300)%Z → GraphClient.content r ≠ "" →
     GraphClient.parsed_json r = None →
     result = GraphClient.GReturn (GraphClient.RawBytes (GraphClient.content r))).
Proof.
  intros Hacquire Hsend result status. unfold result.
  rewrite (request_with_token _ _ _ _ _ _ _ _ _ _ _ _ _ _ Hacquire).
  cbn zeta. rewrite Hsend. fold status.
  split; [|split; [|split]].
  - intros Hout.
    assert ((200 <=? status)%Z && (status <? 300)%Z = false) as ->; [|done].
    apply andb_false_iff. destruct Hout; [left | right]; lia.
  - intros Hin Hempty.
    assert ((200 <=? status)%Z && (status <? 300)%Z = true) as ->.
    { apply andb_true_iff. split; lia. }
    by rewrite Hempty.
  - intros Hin Hbody j Hj.
    assert ((200 <=? status)%Z && (status <? 300)%Z = true) as ->.
    { apply andb_true_iff. split; lia. }
    rewrite bool_decide_eq_false_2 by done. by rewrite Hj.
  - intros Hin Hbody Hj.
    assert ((200 <=? status)%Z && (status <? 300)%Z = true) as ->.
    { apply andb_true_iff. split; lia. }
    rewrite bool_decide_eq_false_2 by done. by rewrite Hj.
Qed.

(** X23.  With a token in hand, [_request] consults the network for
    one request only: to the base URL followed by the endpoint, with
    the method, parameters and body it was given, and, unless the
    caller supplied an [Authorization] header of its own, with the
    bearer token. *)
Theorem request_sends_one method endpoint params json_body data headers stream
    g token m' :
  acquire_token_silent json_dumps provider persist (GraphClient._auth_manager g)
    = (Return token, m') →
  ∃ rq,
    GraphClient.rq_method rq = method ∧
    GraphClient.rq_url rq = GraphClient._base_url g ++ endpoint ∧
    GraphClient.rq_params rq = params ∧
    GraphClient.rq_json rq = json_body ∧
    GraphClient.rq_data rq = data ∧
    (default ∅ headers !! "Authorization" = None →
     GraphClient.rq_headers rq !! "Authorization" = Some ("Bearer " ++ token)) ∧
    ∀ send',
      send' rq = send rq →
      GraphClient._request json_dumps provider persist send'
        method endpoint params json_body data headers stream g
      = request method endpoint params json_body data headers stream g.
Proof.
  intros Hacquire. eexists. repeat split; cycle -1.
  - intros send' Hsame.
    rewrite !(request_with_token _ _ _ _ _ _ _ _ _ _ _ _ _ _ Hacquire).
    cbn zeta. rewrite Hsame. reflexivity.
  - done.
  - done.
  - done.
  - done.
  - done.
  - cbn. intros Hnone.
    assert (Hauth : (default ∅ headers ∪ {["Authorization" := "Bearer " ++ token]}
                     : gmap string string) !! "Authorization"
                    = Some ("Bearer " ++ token)).
    { apply lookup_union_Some_raw. right. split; [done|].
      apply lookup_singleton_eq. }
    case_match; [|done]. by rewrite lookup_insert_ne.
Qed.

(** ** Drives *)

(** X24.  [set_active_drive] moves the active drive only when the drive
    could be fetched: if [get_drive] raises, the same exception comes
    out and the active drive is what it was; if it returns, its
    metadata is returned and the drive becomes the one that calls
    without a drive identifier resolve to. *)
Theorem set_active_drive_after_fetch (drive_id : string)
    (g : GraphClient.graph_client) :
  (∀ e g', GraphClient.get_drive json_dumps provider persist send drive_id g
             = (GraphClient.GRaise e, g') →
     GraphClient.set_active_drive json_dumps provider persist send drive_id g
       = (GraphClient.GRaise e, g') ∧
     GraphClient._active_drive_id g' = GraphClient._active_drive_id g) ∧
  (∀ metadata g', GraphClient.get_drive json_dumps provider persist send drive_id g
                    = (GraphClient.GReturn metadata, g') →
     let g'' := GraphClient.set_active_drive_id (Some drive_id) g' in
     GraphClient.set_active_drive json_dumps provider persist send drive_id g
       = (GraphClient.GReturn metadata, g'') ∧
     (drive_id ≠ "" →
      GraphClient._resolve_drive_id None g'' = (GraphClient.GReturn drive_id, g''))).
Proof.
  split.
  - intros e g' Hget.
    split; [unfold GraphClient.set_active_drive, GraphClient.gbind; by rewrite Hget|].
    unfold GraphClient.get_drive in Hget.
    destruct (request_frame "GET" ("/drives/" ++ drive_id) None None None None
                false g) as [m' Hm]. rewrite Hget in Hm. simpl in Hm. by subst g'.
  - intros metadata g' Hget g''.
    split; [unfold GraphClient.set_active_drive, GraphClient.gbind; by rewrite Hget|].
    intros Hne. unfold GraphClient._resolve_drive_id. cbn.
    by rewrite bool_decide_eq_false_2.
Qed.

(** X25.  Without a drive (no identifier in the call, no active drive)
    the item operations raise [GraphAPIError] at once: no token is
    acquired, nothing is sent, and the client is unchanged, whatever
    the world would answer. *)
Theorem item_operations_need_drive (drive_id path : option string)
    (item_path folder_name conflict_behavior : string)
    (g : GraphClient.graph_client) :
  truthy drive_id = false →
  truthy (GraphClient._active_drive_id g) = false →
  let no_drive :=
    GraphClient.GraphAPIError
      "No drive specified. Use Set_Active_Drive or provide drive_id explicitly in the tool call."
      None GraphClient.NoDetails in
  let refused : GraphClient.goutcome GraphClient.json * GraphClient.graph_client :=
    (GraphClient.GRaise no_drive, g) in
  GraphClient.list_items json_dumps provider persist send drive_id path g = refused ∧
  GraphClient.get_item_metadata json_dumps provider persist send drive_id item_path g
    = refused ∧
  GraphClient.delete_item json_dumps provider persist send repr drive_id item_path g
    = refused ∧
  GraphClient.create_folder json_dumps provider persist send repr
    folder_name path drive_id conflict_behavior g = refused.
Proof.
  intros Hdrive Hactive no_drive refused.
  assert (Hresolve : GraphClient._resolve_drive_id drive_id g
                     = (GraphClient.GRaise no_drive, g)).
  { unfold GraphClient._resolve_drive_id, py_or. by rewrite Hdrive, Hactive. }
  unfold GraphClient.list_items, GraphClient.get_item_metadata,
    GraphClient.delete_item, GraphClient.create_folder, GraphClient.gbind.
  by rewrite !Hresolve.
Qed.

(** X26.  An item path is read up to its leading and trailing slashes:
    [_resolve_item] asks for the same item whether or not the path
    carries them, and a path made of slashes only is the root, like no
    path at all. *)
Theorem resolve_item_ignores_outer_slashes (drive_id path : string) :
  GraphClient._resolve_item json_dumps provider persist send drive_id (Some path)
  = GraphClient._resolve_item json_dumps provider persist send drive_id
      (Some (strip_chars "/" path)) ∧
  (strip_chars "/" path = "" →
   GraphClient._resolve_item json_dumps provider persist send drive_id (Some path)
   = GraphClient._resolve_item json_dumps provider persist send drive_id None).
Proof.
  split.
  - unfold GraphClient._resolve_item. cbn [default from_option id].
    unfold strip_chars. rewrite !strip_with_idem.
    destruct (decide (strip_with (λ c, has_char c "/") path = "")) as [Hroot|Hitem].
    + rewrite Hroot. rewrite !bool_decide_eq_true_2 by done.
      by rewrite !orb_true_r.
    + rewrite !bool_decide_eq_false_2 by done. rewrite !orb_false_r.
      assert (Hp : truthy (Some path) = true).
      { apply truthy_of_nonempty. by intros ->. }
      rewrite Hp, (truthy_of_nonempty _ Hitem). done.
  - intros Hroot. unfold GraphClient._resolve_item. cbn [default from_option id].
    rewrite Hroot. rewrite bool_decide_eq_true_2 by done. by rewrite orb_true_r.
Qed.

End GraphFacts.

(** ** Sites *)

Section GraphSites.
Context (json_dumps : response → string)
        (provider : manager → gmap string string → provider_answer)
        (persist : app → outcome unit * app)
        (send : GraphClient.http_request → GraphClient.http_answer)
        (repr : GraphClient.json → string).

Abbreviation site_by_url :=
  (GraphClient.get_site_by_url json_dumps provider persist send).

(** X27.  A site URL without [//] is refused with [GraphAPIError]
    before anything happens: no token is acquired, nothing is sent, and
    the client is unchanged. *)
Theorem get_site_by_url_needs_absolute_url (site_url : string)
    (g : GraphClient.graph_client) :
  contains "//" site_url = false →
  ∃ message,
    site_by_url site_url g =
      (GraphClient.GRaise
         (GraphClient.GraphAPIError message None GraphClient.NoDetails), g) ∧
    (message = "site_url cannot be empty" ∨
     message = "site_url must be an absolute URL").
Proof.
  intros Hno. unfold GraphClient.get_site_by_url.
  case_bool_decide as Hblank; [eauto|].
  destruct (find_split "//" _) as [[before after]|] eqn:Hsplit; [|eauto].
  exfalso. unfold contains in Hno. apply bool_decide_eq_false in Hno.
  apply Hno. apply (trimmed_contains "//" site_url). rewrite Hsplit. eauto.
Qed.

(** X28.  For a URL [scheme://host/path] given without surrounding
    white space or trailing slash, where the host has a dot and the
    scheme has none, [get_site_by_url] is the request
    [GET /sites/host:/path:]. *)
Theorem get_site_by_url_endpoint (scheme host path : string)
    (g : GraphClient.graph_client) :
  let site_url := scheme ++ "://" ++ host ++ "/" ++ path in
  strip site_url = site_url →
  endswith_char "/" site_url = false →
  has_char "/" scheme = false → has_char "." scheme = false →
  has_char "/" host = false → has_char "." host = true →
  strip_chars "/" path = path → path ≠ "" →
  site_by_url site_url g =
    GraphClient._request json_dumps provider persist send
      "GET" ("/sites/" ++ host ++ ":/" ++ path ++ ":")
      None None None None false g.
Proof.
  intros site_url Hstrip Hend Hscheme Hdot Hhost Hhostdot Hpath Hne.
  assert (Hurl_ne : site_url ≠ "").
  { unfold site_url. destruct scheme; simpl; done. }
  assert (Hhost_ne : host ≠ "") by (by intros ->).
  unfold GraphClient.get_site_by_url. rewrite Hstrip.
  rewrite bool_decide_eq_false_2 by done. rewrite Hend.
  assert (Hfirst : find_split "//" site_url
                   = Some (scheme ++ ":", host ++ "/" ++ path)).
  { unfold site_url.
    change (scheme ++ "://" ++ host ++ "/" ++ path)
      with (scheme ++ ":" ++ "//" ++ (host ++ "/" ++ path)).
    rewrite (string_app_assoc scheme ":").
    apply (find_split_first "/" "/"). rewrite has_char_app, Hscheme. done. }
  rewrite Hfirst.
  assert (Hafter : find_split "/" (host ++ "/" ++ path) = Some (host, path)).
  { by apply (find_split_first "/" ""). }
  unfold contains. rewrite Hafter.
  rewrite bool_decide_eq_true_2 by eauto.
  rewrite bool_decide_eq_false_2 by done.
  assert (Hlate : find_split host site_url
                  = Some (scheme ++ "://", "/" ++ path)).
  { unfold site_url.
    change (scheme ++ "://" ++ host ++ "/" ++ path)
      with (scheme ++ "://" ++ host ++ ("/" ++ path)).
    rewrite (string_app_assoc scheme "://").
    apply (find_split_late host (scheme ++ "://") ("/" ++ path) "." "/");
      try done.
    - rewrite has_char_app, Hdot. done.
    - right. clear -scheme. induction scheme as [|c s IH]; [done|].
      simpl. destruct (s ++ "://") eqn:E; [by destruct s|]. exact IH. }
  rewrite Hlate. unfold GraphClient.gbind, GraphClient.gret.
  assert (Hrel : strip_chars "/" ("/" ++ path) = path).
  { rewrite <- Hpath at 2. reflexivity. }
  rewrite Hrel. by rewrite bool_decide_eq_false_2.
Qed.

(** X29.  A URL whose host is empty, [scheme:///...], makes
    [get_site_by_url] raise [ValueError], not [GraphAPIError], before
    any token is acquired or request sent. *)
Theorem get_site_by_url_empty_host (before rest : string)
    (g : GraphClient.graph_client) :
  let site_url := before ++ "///" ++ rest in
  strip site_url = site_url →
  endswith_char "/" site_url = false →
  has_char "/" before = false →
  site_by_url site_url g =
    (GraphClient.GRaise (GraphClient.Propagated (Exn ValueError "empty separator")),
     g).
Proof.
  intros site_url Hstrip Hend Hbefore.
  assert (Hurl_ne : site_url ≠ "").
  { unfold site_url. destruct before; simpl; done. }
  unfold GraphClient.get_site_by_url. rewrite Hstrip.
  rewrite bool_decide_eq_false_2 by done. rewrite Hend.
  assert (Hfirst : find_split "//" site_url = Some (before, "/" ++ rest)).
  { unfold site_url.
    change (before ++ "///" ++ rest) with (before ++ "//" ++ ("/" ++ rest)).
    by apply (find_split_first "/" "/"). }
  rewrite Hfirst. reflexivity.
Qed.

(** With a site identifier in the call, the site URL is not looked at:
    the drives are requested for that identifier, whatever the URL
    holds, and with neither the call is refused at once. *)
Theorem list_site_drives_prefers_identifier (site_id site_url : option string)
    (g : GraphClient.graph_client) :
  (truthy site_id = true →
   GraphClient.list_site_drives json_dumps provider persist send repr
     site_id site_url g
   = GraphClient.list_site_drives json_dumps provider persist send repr
       site_id None g) ∧
  (truthy site_id = false → truthy site_url = false →
   GraphClient.list_site_drives json_dumps provider persist send repr
     site_id site_url g
   = (GraphClient.GRaise
        (GraphClient.GraphAPIError
           "Either site_id or site_url must be provided to list site drives"
           None GraphClient.NoDetails), g)).
Proof.
  split.
  - intros Hid. unfold GraphClient.list_site_drives. rewrite Hid.
    cbn [negb andb]. by rewrite !andb_false_r.
  - intros Hid Hurl. unfold GraphClient.list_site_drives. by rewrite Hid, Hurl.
Qed.

End GraphSites.

(** ** Drive items *)

(** X30.  [_simplify_drive_item] returns exactly when the item is a
    dictionary whose [parentReference], if present, is a dictionary;
    what it returns has the same ten keys, in the same order, whatever
    the item holds.  A [parentReference] that is [null] raises
    [AttributeError]. *)
Theorem simplify_drive_item_shape (entries : list (string * GraphClient.json)) :
  let item := GraphClient.Parsed (GraphClient.JDict entries) in
  ((GraphClient.jlookup entries "parentReference" = None ∨
    ∃ parent, GraphClient.jlookup entries "parentReference"
              = Some (GraphClient.JDict parent)) →
   ∃ simplified,
     GraphClient._simplify_drive_item item
       = GraphClient.GReturn (GraphClient.JDict simplified) ∧
     map fst simplified =
       ["id"; "name"; "driveId"; "path"; "webUrl"; "createdDateTime";
        "lastModifiedDateTime"; "size"; "folder"; "file"] ∧
     GraphClient.jlookup simplified "id"
       = Some (default GraphClient.JNull (GraphClient.jlookup entries "id"))) ∧
  (GraphClient.jlookup entries "parentReference" = Some GraphClient.JNull →
   GraphClient._simplify_drive_item item
     = GraphClient.GRaise GraphClient.attribute_error).
Proof.
  split.
  - intros [Hnone | [parent Hparent]]; unfold GraphClient._simplify_drive_item;
      [rewrite Hnone | rewrite Hparent]; cbn; eauto.
  - intros Hnull. unfold GraphClient._simplify_drive_item. by rewrite Hnull.
Qed.

End ClientProperties.

Section ClientSamples.

#[local] Existing Instance latin_lower.

(** ** The Graph client on sample worlds *)

Lemma init_tolerates_witness :
  ∃ logger : list (level * string),
    length logger ≤ 1 ∧ Forall (λ entry, fst entry = WARNING) logger ∧
    __init__ deserialize_alice normal_path constructing
      "client-id" "" ["User.Read"] "/tmp/cache.bin" Missing
    = Return (mkManager ["User.Read"] "/tmp/cache.bin" ∅ None
                (mkApp "client-id" "https://login.microsoftonline.com/common"
                       [] false)
                logger).
Proof.
  apply (init_tolerates deserialize_alice normal_path constructing
           "client-id" "" ["User.Read"] "/tmp/cache.bin" Missing);
    [discriminate | by left].
Defined.

Lemma request_needs_token_witness :
  GraphClient._request plain_json granting_provider saving (answering ok_response)
      "GET" "/me/drives" None None None None false (client_of_nobody None)
  = (GraphClient.GRaise (GraphClient.Propagated
       (Exn AuthenticationError
          "No active Microsoft account selected. Use the authentication tools to sign in and select an account.")),
     GraphClient.set_auth_manager (manager_on [] None) (client_of_nobody None)).
Proof.
  apply (proj1 (request_needs_token plain_json granting_provider saving
                  (answering ok_response) "GET" "/me/drives" None None None None
                  false (client_of_nobody None) _ _ eq_refl)).
Defined.

Lemma request_outcome_by_status_witness :
  fst (GraphClient._request plain_json granting_provider saving
         (answering not_found_response)
         "GET" "/drives/b!drive-9" None None None None false (client_of_alice None))
  = GraphClient.GRaise
      (GraphClient.GraphAPIError "Microsoft Graph request failed with status 404"
         (Some 404%Z) (GraphClient.DetailJson (GraphClient.JDict []))).
Proof.
  apply (proj1 (request_outcome_by_status plain_json granting_provider saving
                  (answering not_found_response)
                  "GET" "/drives/b!drive-9" None None None None
                  (client_of_alice None) "access-token-text"
                  (manager_on [alice] (Some "uid-alice.tenant-1"))
                  not_found_response eq_refl (λ _, eq_refl))).
  right. simpl. lia.
Defined.

Lemma request_sends_one_witness :
  ∃ rq,
    GraphClient.rq_url rq = "https://graph.microsoft.com/v1.0/me/drives" ∧
    GraphClient.rq_headers rq !! "Authorization" = Some "Bearer access-token-text".
Proof.
  destruct (request_sends_one plain_json granting_provider saving
              (answering ok_response) "GET" "/me/drives" None None None None false
              (client_of_alice None) "access-token-text"
              (manager_on [alice] (Some "uid-alice.tenant-1")) eq_refl)
    as (rq & _ & Hurl & _ & _ & _ & Hauth & _).
  exists rq. split; [by rewrite Hurl | by apply Hauth].
Defined.

Lemma set_active_drive_after_fetch_witness :
  GraphClient.set_active_drive plain_json granting_provider saving
      (answering ok_response) "b!drive-1" (client_of_alice None)
  = (GraphClient.GReturn (GraphClient.Parsed drive_document),
     client_of_alice (Some "b!drive-1")) ∧
  GraphClient._resolve_drive_id None (client_of_alice (Some "b!drive-1"))
  = (GraphClient.GReturn "b!drive-1", client_of_alice (Some "b!drive-1")).
Proof.
  destruct (proj2 (set_active_drive_after_fetch plain_json granting_provider saving
                     (answering ok_response) "b!drive-1" (client_of_alice None))
              (GraphClient.Parsed drive_document) (client_of_alice None) eq_refl)
    as [Hset Hresolve].
  split; [exact Hset | apply Hresolve; discriminate].
Defined.

Lemma item_operations_need_drive_witness :
  fst (GraphClient.delete_item plain_json granting_provider saving
         (answering ok_response) plain_repr None "Reports/2024.xlsx"
         (client_of_alice None))
  = GraphClient.GRaise
      (GraphClient.GraphAPIError
         "No drive specified. Use Set_Active_Drive or provide drive_id explicitly in the tool call."
         None GraphClient.NoDetails).
Proof.
  destruct (item_operations_need_drive plain_json granting_provider saving
              (answering ok_response) plain_repr None None
              "Reports/2024.xlsx" "New" "fail" (client_of_alice None)
              eq_refl eq_refl) as (_ & _ & Hdelete & _).
  by rewrite Hdelete.
Defined.

Lemma resolve_item_ignores_outer_slashes_witness :
  GraphClient._resolve_item plain_json granting_provider saving
    (answering ok_response) "b!drive-1" (Some "//")
  = GraphClient._resolve_item plain_json granting_provider saving
      (answering ok_response) "b!drive-1" None.
Proof.
  apply (proj2 (resolve_item_ignores_outer_slashes plain_json granting_provider
                  saving (answering ok_response) "b!drive-1" "//")).
  reflexivity.
Defined.

Lemma get_site_by_url_needs_absolute_url_witness :
  ∃ message,
    GraphClient.get_site_by_url plain_json granting_provider saving
        (answering ok_response) "tenant.sharepoint.com/sites/Example"
        (client_of_alice None)
    = (GraphClient.GRaise
         (GraphClient.GraphAPIError message None GraphClient.NoDetails),
       client_of_alice None) ∧
    (message = "site_url cannot be empty" ∨
     message = "site_url must be an absolute URL").
Proof.
  apply (get_site_by_url_needs_absolute_url plain_json granting_provider saving
           (answering ok_response) "tenant.sharepoint.com/sites/Example"
           (client_of_alice None)).
  reflexivity.
Defined.

Lemma get_site_by_url_endpoint_witness :
  GraphClient.get_site_by_url plain_json granting_provider saving
      (answering ok_response) "https://tenant.sharepoint.com/sites/Example"
      (client_of_alice None)
  = GraphClient._request plain_json granting_provider saving
      (answering ok_response)
      "GET" "/sites/tenant.sharepoint.com:/sites/Example:"
      None None None None false (client_of_alice None).
Proof.
  apply (get_site_by_url_endpoint plain_json granting_provider saving
           (answering ok_response) "https" "tenant.sharepoint.com"
           "sites/Example" (client_of_alice None)); try reflexivity.
  discriminate.
Defined.

Lemma get_site_by_url_empty_host_witness :
  GraphClient.get_site_by_url plain_json granting_provider saving
      (answering ok_response) "https:///sites/Example" (client_of_alice None)
  = (GraphClient.GRaise
       (GraphClient.Propagated (Exn ValueError "empty separator")),
     client_of_alice None).
Proof.
  apply (get_site_by_url_empty_host plain_json granting_provider saving
           (answering ok_response) "https:" "sites/Example"
           (client_of_alice None)); reflexivity.
Defined.

Lemma simplify_drive_item_shape_witness :
  ∃ simplified,
    GraphClient._simplify_drive_item (GraphClient.Parsed drive_document)
      = GraphClient.GReturn (GraphClient.JDict simplified) ∧
    map fst simplified =
      ["id"; "name"; "driveId"; "path"; "webUrl"; "createdDateTime";
       "lastModifiedDateTime"; "size"; "folder"; "file"] ∧
    GraphClient.jlookup simplified "id" = Some (GraphClient.JStr "b!drive-1").
Proof.
  apply (proj1 (simplify_drive_item_shape
                  [("id", GraphClient.JStr "b!drive-1");
                   ("name", GraphClient.JStr "Documents")])).
  by left.
Defined.

(** White space beyond ASCII is stripped like any other: a variable
    that holds the no-break space U+00A0 gives the default scopes, and
    a site address that ends with one is read without it (the slash
    before it then goes as a trailing slash, and the host is empty). *)
Lemma configured_scopes_no_break_space :
  configured_scopes (Some " ") = DEFAULT_SCOPES ∧
  configured_scopes (Some "User.Read , Files.Read") = ["User.Read"; "Files.Read"].
Proof. split; vm_compute; reflexivity. Qed.

Lemma get_site_by_url_no_break_space :
  GraphClient.get_site_by_url plain_json granting_provider saving
      (answering ok_response) "https:/// " (client_of_alice None)
  = GraphClient._request plain_json granting_provider saving
      (answering ok_response) "GET" "/sites/:"
      None None None None false (client_of_alice None).
Proof. vm_compute. reflexivity. Qed.

End ClientSamples.
